(** * A shallow embedding of python-imgcat (imgcat.py, iterm2.py, kitty.py)

    Python [bytes] and [str] values are modelled as [list byte]; a Python
    integer is a [Z].  Code that writes to a stream ([fp.write]) runs in a
    small error/writer monad [M]: the output written so far is kept when
    an exception is raised, so "nothing was written" is observable. *)

From Stdlib Require Import ZArith List Lia Bool.
From Stdlib Require Import Strings.Byte.
From Stdlib Require Import Strings.String.
Import ListNotations.
Open Scope Z_scope.

(** ** Bytes *)

(** A byte as a Python [int] in [0, 256). *)
Definition bz (b : byte) : Z := Z.of_N (Byte.to_N b).

(** [bytes([z])] for [0 <= z < 256]. *)
Definition zb (z : Z) : byte :=
  match Byte.of_N (Z.to_N z) with Some b => b | None => x00 end.

(** Byte string literals, e.g. [bs "IHDR"]. *)
Definition bs (s : String.string) : list byte := String.list_byte_of_string s.
Arguments bs s%_string.

Definition ESC : byte := x1b.
Definition BEL : byte := x07.

Fixpoint bytes_eqb (a b : list byte) : bool :=
  match a, b with
  | [], [] => true
  | x :: a', y :: b' => Byte.eqb x y && bytes_eqb a' b'
  | _, _ => false
  end.

(** [s.startswith(p)] *)
Fixpoint startswith (s p : list byte) : bool :=
  match p, s with
  | [], _ => true
  | y :: p', x :: s' => Byte.eqb x y && startswith s' p'
  | _ :: _, [] => false
  end.

(** [s.endswith(p)] *)
Definition endswith (s p : list byte) : bool :=
  startswith (rev s) (rev p).

(** Python slicing [s[i:j]] for non-negative [i], [j]. *)
Definition slice (s : list byte) (i j : nat) : list byte :=
  firstn (j - i) (skipn i s).

(** Python slicing [s[:j]] for an arbitrary integer [j] (negative counts
    from the end; [s[:-0]] is [s[:0]]). *)
Definition slice_upto (s : list byte) (j : Z) : list byte :=
  if j <? 0 then firstn (Z.to_nat (Z.of_nat (List.length s) + j)) s
  else firstn (Z.to_nat j) s.

(** ** Decimal rendering: [str(n)] for an [int] *)

Definition digit_byte (d : N) : byte := zb (48 + Z.of_N d).

Fixpoint digits_aux (fuel : nat) (n : N) (acc : list byte) : list byte :=
  match fuel with
  | O => acc
  | S f =>
      let acc' := digit_byte (n mod 10) :: acc in
      if (n / 10 =? 0)%N then acc' else digits_aux f (n / 10) acc'
  end.

Definition str_N (n : N) : list byte := digits_aux (S (N.size_nat n)) n [].

Definition str_Z (z : Z) : list byte :=
  if z <? 0 then zb 45 :: str_N (Z.to_N (- z)) else str_N (Z.to_N z).

(** ** Python values passed as sizes and control data *)

Inductive PyVal :=
| VNone
| VInt (z : Z)
| VStr (s : list byte).

(** [str(v)] *)
Definition py_str (v : PyVal) : list byte :=
  match v with
  | VNone => bs "None"
  | VInt z => str_Z z
  | VStr s => s
  end.

(** Truthiness: [if v:] *)
Definition py_truthy (v : PyVal) : bool :=
  match v with
  | VNone => false
  | VInt z => negb (z =? 0)
  | VStr s => match s with [] => false | _ => true end
  end.

(** [v == 'lit'] for a string literal. *)
Definition py_eq_str (v : PyVal) (lit : String.string) : bool :=
  match v with VStr s => bytes_eqb s (bs lit) | _ => false end.
Arguments py_eq_str v lit%_string.

(** ** Exceptions and the error/writer monad *)

Inductive exn :=
| ValueError (msg : list byte)
| TypeError
| AssertionError
| UnicodeEncodeError
| OSError (msg : list byte)
| CalledProcessError
| DecompressionBombError.

(** [except OSError:] *)
Definition is_oserror (e : exn) : bool :=
  match e with OSError _ => true | _ => false end.

Definition M (A : Type) : Type := list byte -> (exn + A) * list byte.

Definition ret {A} (a : A) : M A := fun out => (inr a, out).
Definition bind {A B} (m : M A) (k : A -> M B) : M B :=
  fun out =>
    match m out with
    | (inr a, out') => k a out'
    | (inl e, out') => (inl e, out')
    end.
Definition raise {A} (e : exn) : M A := fun out => (inl e, out).
Definition write (b : list byte) : M unit := fun out => (inr tt, out ++ b).
Definition flush : M unit := ret tt.
(** Lift a pure computation that may raise. *)
Definition lift {A} (r : exn + A) : M A := fun out => (r, out).

Notation "x <- m ;; k" := (bind m (fun x => k))
  (at level 61, m at next level, right associativity).
Notation "m ;; k" := (bind m (fun _ => k))
  (at level 61, right associativity).

Definition run {A} (m : M A) : (exn + A) * list byte := m [].

(** ** Base64 ([base64.standard_b64encode], RFC 4648 alphabet) *)

(** Standard library code used by the repository, modelled after RFC 4648. *)
Definition b64_char (s : Z) : byte :=
  zb (if s <? 26 then 65 + s
      else if s <? 52 then 71 + s
      else if s <? 62 then s - 4
      else if s =? 62 then 43 else 47).

Definition PAD : byte := zb 61.

Fixpoint b64encode (l : list byte) : list byte :=
  match l with
  | a :: b :: c :: r =>
      let A := bz a in let B := bz b in let C := bz c in
      b64_char (A / 4) :: b64_char ((A mod 4) * 16 + B / 16)
        :: b64_char ((B mod 16) * 4 + C / 64) :: b64_char (C mod 64)
        :: b64encode r
  | [a; b] =>
      let A := bz a in let B := bz b in
      [b64_char (A / 4); b64_char ((A mod 4) * 16 + B / 16);
       b64_char ((B mod 16) * 4); PAD]
  | [a] =>
      let A := bz a in
      [b64_char (A / 4); b64_char ((A mod 4) * 16); PAD; PAD]
  | [] => []
  end.

(** [base64.b64decode] on its own alphabet: the inverse direction, used to
    state round trips. *)
Definition b64_val (c : byte) : option Z :=
  let n := bz c in
  if (65 <=? n) && (n <=? 90) then Some (n - 65)
  else if (97 <=? n) && (n <=? 122) then Some (n - 71)
  else if (48 <=? n) && (n <=? 57) then Some (n + 4)
  else if n =? 43 then Some 62
  else if n =? 47 then Some 63
  else None.

Fixpoint b64decode (l : list byte) : option (list byte) :=
  match l with
  | [] => Some []
  | c1 :: c2 :: c3 :: c4 :: r =>
      match b64_val c1, b64_val c2 with
      | Some s1, Some s2 =>
          let b1 := zb (s1 * 4 + s2 / 16) in
          if Byte.eqb c3 PAD && Byte.eqb c4 PAD then
            match r with [] => Some [b1] | _ => None end
          else
            match b64_val c3 with
            | None => None
            | Some s3 =>
                let b2 := zb ((s2 mod 16) * 16 + s3 / 4) in
                if Byte.eqb c4 PAD then
                  match r with [] => Some [b1; b2] | _ => None end
                else
                  match b64_val c4 with
                  | None => None
                  | Some s4 =>
                      match b64decode r with
                      | Some rest => Some (b1 :: b2 :: zb ((s3 mod 4) * 64 + s4) :: rest)
                      | None => None
                      end
                  end
            end
      | _, _ => None
      end
  | _ => None
  end.

(** ** imgcat.get_image_shape *)

(** [struct.unpack('<h', ...)]: a signed little-endian 16-bit integer. *)
Definition s16 (u : Z) : Z := if Z.testbit u 15 then u - 65536 else u.

(** [struct.unpack('<hh', b)]; [struct.error] unless [len(b) == 4]. *)
Definition unpack_le_hh (b : list byte) : option (Z * Z) :=
  match b with
  | [b0; b1; b2; b3] => Some (s16 (bz b0 + 256 * bz b1), s16 (bz b2 + 256 * bz b3))
  | _ => None
  end.

(** [struct.unpack('>LL', b)]; [struct.error] unless [len(b) == 8]. *)
Definition unpack_be_LL (b : list byte) : option (Z * Z) :=
  match b with
  | [b0; b1; b2; b3; b4; b5; b6; b7] =>
      Some (((bz b0 * 256 + bz b1) * 256 + bz b2) * 256 + bz b3,
            ((bz b4 * 256 + bz b5) * 256 + bz b6) * 256 + bz b7)
  | _ => None
  end.

(** [_unpack(fmt, buffer, mode)]: [struct.error] becomes
    [ValueError("Invalid {mode} file")]. *)
Definition _unpack (u : list byte -> option (Z * Z)) (buffer : list byte)
    (mode : String.string) : exn + (option Z * option Z) :=
  match u buffer with
  | Some (w, h) => inr (Some w, Some h)
  | None => inl (ValueError (bs "Invalid " ++ bs mode ++ bs " file"))
  end.

Definition PNG_SIG : list byte := map zb [137; 80; 78; 71; 13; 10; 26; 10].

(** The optional Pillow fallback: [None] when [import PIL] fails;
    otherwise [Image.open] followed by [im.width, im.height]: [inr (Some
    (w, h))] when it identifies the image, [inr None] when it raises
    [UnidentifiedImageError], and [inl e] for any other exception it
    raises (an [OSError] on a malformed header, [DecompressionBombError],
    ...). *)
Definition Pil := option (list byte -> exn + option (Z * Z)).

(** The [else] branch of [get_image_shape]: only [UnidentifiedImageError]
    is caught, every other exception of [Image.open] propagates. *)
Definition pil_fallback (pil : Pil) (buf : list byte)
  : exn + (option Z * option Z) :=
  match pil with
  | None => inr (None, None)
  | Some open_image =>
      match open_image buf with
      | inr (Some (w, h)) => inr (Some w, Some h)
      | inr None => inr (None, None)
      | inl e => inl e
      end
  end.

Definition get_image_shape (pil : Pil) (buf : list byte)
  : exn + (option Z * option Z) :=
  let L := List.length buf in
  if (10 <=? L)%nat
     && (bytes_eqb (slice buf 0 6) (bs "GIF87a")
         || bytes_eqb (slice buf 0 6) (bs "GIF89a")) then
    _unpack unpack_le_hh (slice buf 6 10) "GIF"
  else if (24 <=? L)%nat && startswith buf PNG_SIG
          && bytes_eqb (slice buf 12 16) (bs "IHDR") then
    _unpack unpack_be_LL (slice buf 16 24) "PNG"
  else if (16 <=? L)%nat && startswith buf PNG_SIG then
    _unpack unpack_be_LL (slice buf 8 16) "PNG"
  else
    pil_fallback pil buf.

(** ** Escape sequences (iterm2.py, kitty.py) *)

Definition TMUX_WRAP_ST : list byte := ESC :: bs "Ptmux;".
Definition TMUX_WRAP_ED : list byte := [ESC; zb 92].
Definition OSC : list byte := [ESC; zb 93].
Definition CSI : list byte := [ESC; zb 91].
Definition ST : list byte := [BEL].
Definition LF : byte := x0a.

(** [b'\n' * v]: [TypeError] unless [v] is an [int]. *)
Definition bytes_mul (b : list byte) (v : PyVal) : exn + list byte :=
  match v with
  | VInt n => inr (List.concat (repeat b (Z.to_nat n)))
  | _ => inl TypeError
  end.

(** [iterm2._write_image]; [is_tmux] is the [TMUX] environment test and
    [filename] is [None] or the encoded file name. *)
Definition iterm2_write_image (is_tmux : bool) (buf : list byte)
    (filename : option (list byte)) (width height : PyVal)
    (preserve_aspect_ratio : bool) : M unit :=
  (if is_tmux then
     nl <- lift (bytes_mul [LF] height) ;;
     write nl ;;
     write (CSI ++ bs "?25l") ;;
     write (CSI ++ py_str height ++ bs "F") ;;
     write (TMUX_WRAP_ST ++ [ESC])
   else ret tt) ;;
  write OSC ;;
  write (bs "1337;File=inline=1") ;;
  write (bs ";size=" ++ str_Z (Z.of_nat (List.length buf))) ;;
  (match filename with
   | Some ((_ :: _) as filename_bytes) =>
       write (bs ";name=" ++ b64encode filename_bytes)
   | _ => ret tt
   end) ;;
  write (bs ";height=" ++ py_str height) ;;
  (if py_truthy width then write (bs ";width=" ++ py_str width) else ret tt) ;;
  (if negb preserve_aspect_ratio then write (bs ";preserveAspectRatio=0")
   else ret tt) ;;
  write (bs ":") ;;
  flush ;;
  write (b64encode buf) ;;
  write ST ;;
  (if is_tmux then
     write TMUX_WRAP_ED ;;
     write (CSI ++ py_str height ++ bs "E") ;;
     write (CSI ++ bs "?25h")
   else write [LF]) ;;
  flush.

(** ** imgcat.imgcat *)

(** The environment the code consults: [TMUX], the outcome of
    [get_tty_size()] (the terminal rows, or the exception it raises: an
    [OSError] when [/dev/tty] cannot be opened, [CalledProcessError] when
    [stty size] fails, [ValueError] when its output does not parse), and
    the optional Pillow fallback. *)
Record Env := mkEnv {
  env_tmux : bool;
  env_tty : exn + Z;
  env_pil : Pil
}.


(** [get_tty_size()] without a controlling terminal. *)
Definition no_tty : exn + Z :=
  inl (OSError (bs "[Errno 6] No such device or address: '/dev/tty'")).

(** [if im_height:] on an [Optional[int]]. *)
Definition opt_truthy (o : option Z) : bool :=
  match o with Some z => negb (z =? 0) | None => false end.
Definition opt_val (o : option Z) : Z :=
  match o with Some z => z | None => 0 end.

(** Lines 218-239 of [imgcat]: resolution of [height] and [width]. *)
Definition resolve_sizes (env : Env) (buf : list byte) (width height : PyVal)
    (pixels_per_line : Z) : M (PyVal * PyVal) :=
  if py_eq_str height "v0.5" || py_eq_str height "original"
     || py_eq_str width "original" then
    shape <- lift (get_image_shape (env_pil env) buf) ;;
    let '(im_width, im_height) := shape in
    height' <-
      (if py_eq_str height "v0.5" then
         if opt_truthy im_height then
           if 0 <? pixels_per_line then
             let h := (opt_val im_height + (pixels_per_line - 1)) / pixels_per_line in
             match env_tty env with
             | inr tty_height => ret (VInt (Z.max 1 (Z.min h (tty_height - 9))))
             | inl e => if is_oserror e then ret (VInt h) else raise e
             end
           else raise AssertionError
         else ret (VInt 10)
       else if py_eq_str height "original" then
         ret (if opt_truthy im_height then VStr (str_Z (opt_val im_height) ++ bs "px")
              else VStr (bs "auto"))
       else ret height) ;;
    let width' :=
      if py_eq_str width "original" then
        if opt_truthy im_width then VStr (str_Z (opt_val im_width) ++ bs "px")
        else VStr (bs "auto")
      else width in
    ret (width', height')
  else ret (width, height).

(** [imgcat(data, filename, width, height, preserve_aspect_ratio,
    pixels_per_line, fp)] for [data] already a [bytes] buffer, so that
    [to_content_buf(data)] is [data]. *)
Definition imgcat (env : Env) (buf : list byte) (filename : option (list byte))
    (width height : PyVal) (preserve_aspect_ratio : bool)
    (pixels_per_line : Z) : M unit :=
  match buf with
  | [] => raise (ValueError (bs "Empty buffer"))
  | _ =>
      sizes <- resolve_sizes env buf width height pixels_per_line ;;
      let '(width', height') := sizes in
      if py_eq_str width' "v0.5" then
        raise (ValueError (bs "There is no legacy fallback for width"))
      else
        iterm2_write_image (env_tmux env) buf filename width' height'
          preserve_aspect_ratio
  end.

(** ** imgcat.parse_size *)

Definition is_digit (b : byte) : bool := (48 <=? bz b) && (bz b <=? 57).

Fixpoint digits_value (acc : Z) (l : list byte) : Z :=
  match l with
  | [] => acc
  | d :: r => digits_value (acc * 10 + (bz d - 48)) r
  end.

(** [int(s)] on an optional sign followed by decimal digits (the
    whitespace and [_] separators Python also admits are left out). *)
Definition py_int (s : list byte) : exn + Z :=
  let parse_digits (l : list byte) :=
    match l with
    | [] => None
    | _ => if forallb is_digit l then Some (digits_value 0 l) else None
    end in
  let r :=
    match s with
    | c :: l => if Byte.eqb c (zb 45) then option_map Z.opp (parse_digits l)
                else if Byte.eqb c (zb 43) then parse_digits l
                else parse_digits s
    | [] => None
    end in
  match r with
  | Some n => inr n
  | None => inl (ValueError (bs "invalid literal for int()"))
  end.

(** The [for suffix in ("%", "px", "")] loop; falling out of it returns
    [None]. *)
Fixpoint parse_suffixes (suffixes : list (list byte)) (s : list byte)
  : exn + option (list byte) :=
  match suffixes with
  | [] => inr None
  | suffix :: rest =>
      if endswith s suffix then
        match py_int (slice_upto s (- Z.of_nat (List.length suffix))) with
        | inr n => inr (Some (str_Z n ++ suffix))
        | inl e => inl e
        end
      else parse_suffixes rest s
  end.

(** [parse_size(s)]: [inr None] is Python's [None] ("default"). *)
Definition parse_size (s : list byte) : exn + option (list byte) :=
  if bytes_eqb s (bs "v0.5") || bytes_eqb s (bs "auto")
     || bytes_eqb s (bs "original") then inr (Some s)
  else if bytes_eqb s (bs "default") then inr None
  else parse_suffixes [bs "%"; bs "px"; []] s.

(** ** kitty.py *)

(** An [OrderedDict] of control data, in insertion order. *)
Definition Cmd := list (list byte * PyVal).

(** [cmd[k] = v]: update in place, or append a new key at the end. *)
Fixpoint od_set (cmd : Cmd) (k : list byte) (v : PyVal) : Cmd :=
  match cmd with
  | [] => [(k, v)]
  | (k', v') :: r =>
      if bytes_eqb k' k then (k', v) :: r else (k', v') :: od_set r k v
  end.

Fixpoint join (sep : list byte) (l : list (list byte)) : list byte :=
  match l with
  | [] => []
  | [x] => x
  | x :: r => x ++ sep ++ join sep r
  end.

Definition is_ascii (b : byte) : bool := bz b <? 128.

(** [serialize_gr_command(cmd, payload)]; [.encode('ascii')] raises on a
    non-ASCII control string. *)
Definition serialize_gr_command (is_tmux : bool) (cmd : Cmd)
    (payload : list byte) : exn + list byte :=
  let ctrl := join (bs ",") (map (fun kv => fst kv ++ bs "=" ++ py_str (snd kv)) cmd) in
  if forallb is_ascii ctrl then
    inr ((if is_tmux then TMUX_WRAP_ST ++ [ESC] else [])
         ++ [ESC; zb 95; zb 71]
         ++ ctrl
         ++ (match payload with [] => [] | _ => bs ";" ++ payload end)
         ++ (if is_tmux then [ESC] else [])
         ++ [ESC; zb 92]
         ++ (if is_tmux then TMUX_WRAP_ED else []))
  else inl UnicodeEncodeError.

(** The control data built by [kitty._write_image]. *)
Definition kitty_cmd (is_tmux : bool) (height : Z) : Cmd :=
  [(bs "a", VStr (bs "T")); (bs "f", VInt 100); (bs "r", VInt height);
   (bs "C", VInt (if is_tmux then 1 else 0)); (bs "X", VInt 10);
   (bs "Y", VInt 10)].

(** The [while data:] loop of [write_chunked]; each round removes at least
    one byte, so [fuel = len(data)] rounds suffice.  After the first round
    [cmd.clear()] leaves only the [m] key. *)
Fixpoint write_chunked_loop (fuel : nat) (is_tmux : bool) (cmd : Cmd)
    (data : list byte) : M unit :=
  match fuel with
  | O => ret tt
  | S fuel' =>
      match data with
      | [] => ret tt
      | _ =>
          let chunk := firstn 4096 data in
          let data' := skipn 4096 data in
          let m := match data' with [] => 0 | _ => 1 end in
          let cmd' := od_set cmd (bs "m") (VInt m) in
          s <- lift (serialize_gr_command is_tmux cmd' chunk) ;;
          write s ;;
          flush ;;
          write_chunked_loop fuel' is_tmux [] data'
      end
  end.

(** [write_chunked(cmd, data)], writing to [sys.stdout]. *)
Definition write_chunked (is_tmux : bool) (cmd : Cmd) (data : list byte) : M unit :=
  let data64 := b64encode data in
  write_chunked_loop (List.length data64) is_tmux cmd data64.

(** [kitty.clear()], writing to [sys.stdout.buffer]: the pieces are
    collected in [seq] and written with one [write]. *)
Definition kitty_clear (is_tmux : bool) : M unit :=
  let seq :=
    (if is_tmux then [ESC :: bs "Ptmux;" ++ [ESC]] else [])
    ++ [ESC :: bs "_Ga=d,d=A"]
    ++ (if is_tmux then [[ESC]] else [])
    ++ [[ESC; zb 92]]
    ++ (if is_tmux then [[ESC; zb 92]] else []) in
  write (List.concat seq).

(** [kitty._write_image(buf, fp, height)] for an [int] height, with [fp]
    the standard output that [write_chunked] also writes to (the only
    caller, the module's [__main__], passes [fp=sys.stdout.buffer]).
    [b'\n' * height] is empty for a negative height. *)
Definition kitty_write_image (is_tmux : bool) (buf : list byte) (height : Z) : M unit :=
  (if is_tmux then
     write (List.concat (repeat [LF] (Z.to_nat height))) ;;
     write (CSI ++ bs "?25l") ;;
     write (CSI ++ str_Z height ++ bs "F") ;;
     flush
   else ret tt) ;;
  write_chunked is_tmux (kitty_cmd is_tmux height) buf ;;
  (if is_tmux then
     write (CSI ++ str_Z height ++ bs "E") ;;
     write (CSI ++ bs "?25h") ;;
     flush
   else ret tt) ;;
  write [LF] ;;
  flush.

(** ** The passthrough unwrapper of the test suite *)

(** [b.index(pat)] *)
Fixpoint index_aux (pat s : list byte) (i : nat) : option nat :=
  if startswith s pat then Some i
  else match s with
       | [] => None
       | _ :: s' => index_aux pat s' (S i)
       end.
Definition py_index (s pat : list byte) : option nat := index_aux pat s 0.

(** [b.rindex(pat)]: the last occurrence is the first one of the reversed
    pattern in the reversed string. *)
Definition py_rindex (s pat : list byte) : option nat :=
  match index_aux (rev pat) (rev s) 0 with
  | Some k => Some (List.length s - k - List.length pat)%nat
  | None => None
  end.

(** [b.replace(b'\033\033', b'\033')], left to right, non-overlapping. *)
Fixpoint undouble_esc (b : list byte) : list byte :=
  match b with
  | x :: ((y :: r) as l) =>
      if Byte.eqb x ESC && Byte.eqb y ESC then ESC :: undouble_esc r
      else x :: undouble_esc l
  | _ => b
  end.

(** [TestImgcat.tmux_unwrap_passthrough] (test_imgcat.py); [None] when the
    [assert] fails. *)
Definition tmux_unwrap_passthrough (b : list byte) : option (list byte) :=
  match py_index b TMUX_WRAP_ST, py_rindex b TMUX_WRAP_ED with
  | Some st, Some ed => Some (undouble_esc (slice b (st + 7) ed))
  | _, _ => None
  end.

(** ** The frames written by [write_chunked]

    Each frame is (control data, base64 chunk, serialized bytes).  This
    predicate follows one round of the [while data:] loop per frame; the
    theorems restate it frame by frame. *)
Fixpoint chunk_frames_ok (is_tmux : bool) (cmd : Cmd)
    (frames : list (Cmd * list byte * list byte)) (data : list byte) : Prop :=
  match frames with
  | [] => data = []
  | (c, p, s) :: rest =>
      data <> [] /\ p = firstn 4096 data /\
      c = od_set cmd (bs "m") (VInt (match skipn 4096 data with [] => 0 | _ => 1 end)) /\
      serialize_gr_command is_tmux c p = inr s /\
      chunk_frames_ok is_tmux [] rest (skipn 4096 data)
  end.

(** * Lemmas *)

(** ** Bytes *)

Lemma bz_range (b : byte) : 0 <= bz b < 256.
Proof. unfold bz. pose proof (Byte.to_N_bounded b). lia. Qed.

Lemma zb_bz (b : byte) : zb (bz b) = b.
Proof. unfold zb, bz. rewrite N2Z.id, Byte.of_to_N. reflexivity. Qed.

Lemma bz_zb (z : Z) : 0 <= z < 256 -> bz (zb z) = z.
Proof.
  intros Hz. unfold zb.
  destruct (Byte.of_N (Z.to_N z)) as [b|] eqn:E.
  - apply Byte.to_of_N in E. unfold bz. rewrite E. lia.
  - pose proof (Byte.to_of_N_option_map (Z.to_N z)) as H.
    rewrite E in H. simpl in H.
    destruct (N.leb_spec (Z.to_N z) 255); [discriminate | lia].
Qed.

Lemma bz_inj (a b : byte) : bz a = bz b -> a = b.
Proof. intros H. rewrite <- (zb_bz a), <- (zb_bz b), H. reflexivity. Qed.

Lemma divmod_split (x k y : Z) :
  0 < k -> 0 <= y < k -> (x * k + y) / k = x /\ (x * k + y) mod k = y.
Proof.
  intros Hk Hy. split.
  - rewrite Z.div_add_l by lia. rewrite Z.div_small by lia. lia.
  - rewrite Z.add_comm, Z.mod_add by lia. apply Z.mod_small. lia.
Qed.

(** ** Base64 *)

Ltac zcases :=
  repeat match goal with
         | |- context [?a <=? ?b] => destruct (Z.leb_spec a b)
         | |- context [?a <? ?b] => destruct (Z.ltb_spec a b)
         | |- context [?a =? ?b] => destruct (Z.eqb_spec a b)
         end; cbv beta iota zeta delta [andb orb negb]; try lia.

Lemma b64_val_char (s : Z) : 0 <= s < 64 -> b64_val (b64_char s) = Some s.
Proof.
  intros Hs. unfold b64_char.
  destruct (Z.ltb_spec s 26); [|destruct (Z.ltb_spec s 52);
    [|destruct (Z.ltb_spec s 62); [|destruct (Z.eqb_spec s 62)]]];
  unfold b64_val; rewrite bz_zb by lia; zcases; f_equal; lia.
Qed.

Lemma b64_char_not_pad (s : Z) : 0 <= s < 64 -> Byte.eqb (b64_char s) PAD = false.
Proof.
  intros Hs. destruct (Byte.eqb (b64_char s) PAD) eqn:E; [|reflexivity].
  apply Byte.byte_dec_bl in E. pose proof (b64_val_char s Hs) as H.
  rewrite E in H. discriminate H.
Qed.

Lemma sextet_ranges (A B : Z) :
  0 <= A < 256 -> 0 <= B < 256 ->
  0 <= A / 4 < 64 /\ 0 <= (A mod 4) * 16 + B / 16 < 64 /\
  0 <= (A mod 16) * 4 + B / 64 < 64 /\ 0 <= A mod 64 < 64 /\
  0 <= B / 16 < 16 /\ 0 <= B / 64 < 4.
Proof.
  intros HA HB.
  pose proof (Z.mod_pos_bound A 4). pose proof (Z.mod_pos_bound A 16).
  pose proof (Z.mod_pos_bound A 64).
  assert (0 <= A / 4 < 64) by (split; [apply Z.div_pos | apply Z.div_lt_upper_bound]; lia).
  assert (0 <= B / 16 < 16) by (split; [apply Z.div_pos | apply Z.div_lt_upper_bound]; lia).
  assert (0 <= B / 64 < 4) by (split; [apply Z.div_pos | apply Z.div_lt_upper_bound]; lia).
  lia.
Qed.

Lemma decode_first (A B : Z) :
  0 <= A < 256 -> 0 <= B < 256 ->
  A / 4 * 4 + ((A mod 4) * 16 + B / 16) / 16 = A.
Proof.
  intros HA HB. pose proof (sextet_ranges A B HA HB).
  pose proof (Z.mod_pos_bound A 4).
  rewrite (proj1 (divmod_split (A mod 4) 16 (B / 16) ltac:(lia) ltac:(lia))).
  pose proof (Z.div_mod A 4). lia.
Qed.

Lemma decode_second (A B C : Z) :
  0 <= A < 256 -> 0 <= B < 256 -> 0 <= C < 256 ->
  (((A mod 4) * 16 + B / 16) mod 16) * 16 + ((B mod 16) * 4 + C / 64) / 4 = B.
Proof.
  intros HA HB HC. pose proof (sextet_ranges A B HA HB).
  pose proof (sextet_ranges B C HB HC).
  rewrite (proj2 (divmod_split (A mod 4) 16 (B / 16) ltac:(lia) ltac:(lia))).
  rewrite (proj1 (divmod_split (B mod 16) 4 (C / 64) ltac:(lia) ltac:(lia))).
  pose proof (Z.div_mod B 16). lia.
Qed.

Lemma decode_third (B C : Z) :
  0 <= B < 256 -> 0 <= C < 256 ->
  (((B mod 16) * 4 + C / 64) mod 4) * 64 + C mod 64 = C.
Proof.
  intros HB HC. pose proof (sextet_ranges B C HB HC).
  rewrite (proj2 (divmod_split (B mod 16) 4 (C / 64) ltac:(lia) ltac:(lia))).
  pose proof (Z.div_mod C 64). lia.
Qed.

Lemma pad_eqb : Byte.eqb PAD PAD = true.
Proof. reflexivity. Qed.

Lemma b64decode_b64encode (l : list byte) : b64decode (b64encode l) = Some l.
Proof.
  induction l as [l IH] using
    (well_founded_induction (Wf_nat.well_founded_ltof _ (@List.length byte))).
  destruct l as [|a [|b [|c r]]].
  - reflexivity.
  - pose proof (bz_range a) as Ha. pose proof (sextet_ranges (bz a) 0 Ha ltac:(lia)).
    cbn [b64encode b64decode].
    rewrite !b64_val_char by lia. rewrite pad_eqb. cbv iota beta delta [andb].
    rewrite Z.div_mul by lia. pose proof (Z.div_mod (bz a) 4).
    replace (bz a / 4 * 4 + bz a mod 4) with (bz a) by lia.
    rewrite zb_bz. reflexivity.
  - pose proof (bz_range a) as Ha. pose proof (bz_range b) as Hb.
    pose proof (sextet_ranges (bz a) (bz b) Ha Hb).
    pose proof (sextet_ranges (bz b) 0 Hb ltac:(lia)).
    cbn [b64encode b64decode].
    rewrite !b64_val_char by lia. rewrite b64_char_not_pad by lia.
    rewrite pad_eqb. cbv iota beta delta [andb].
    rewrite (decode_first (bz a) (bz b) Ha Hb), zb_bz.
    rewrite Z.div_mul by lia.
    rewrite (proj2 (divmod_split (bz a mod 4) 16 (bz b / 16) ltac:(lia) ltac:(lia))).
    pose proof (Z.div_mod (bz b) 16).
    replace (bz b / 16 * 16 + bz b mod 16) with (bz b) by lia.
    rewrite zb_bz. reflexivity.
  - pose proof (bz_range a) as Ha. pose proof (bz_range b) as Hb.
    pose proof (bz_range c) as Hc.
    pose proof (sextet_ranges (bz a) (bz b) Ha Hb).
    pose proof (sextet_ranges (bz b) (bz c) Hb Hc).
    pose proof (sextet_ranges (bz c) 0 Hc ltac:(lia)).
    cbn [b64encode b64decode].
    rewrite !b64_val_char by lia. rewrite !b64_char_not_pad by lia.
    cbv iota beta delta [andb]. try rewrite !b64_val_char by lia.
    rewrite IH by (unfold Wf_nat.ltof; simpl; lia).
    rewrite (decode_first (bz a) (bz b) Ha Hb), (decode_second (bz a) (bz b) (bz c) Ha Hb Hc),
      (decode_third (bz b) (bz c) Hb Hc), !zb_bz.
    reflexivity.
Qed.

(** ** Lists of bytes *)

Lemma bytes_eqb_refl (l : list byte) : bytes_eqb l l = true.
Proof.
  induction l as [|x l IH]; simpl; [reflexivity|].
  rewrite IH, Byte.byte_dec_lb by reflexivity. reflexivity.
Qed.

Lemma slice_length (s : list byte) (i j : nat) :
  (i <= j <= List.length s)%nat -> List.length (slice s i j) = (j - i)%nat.
Proof.
  intros H. unfold slice. rewrite List.length_firstn, List.length_skipn. lia.
Qed.

(** ** The sniffer *)

Lemma s16_spec (u : Z) :
  0 <= u < 65536 -> (u < 32768 -> s16 u = u) /\ (32768 <= u -> s16 u = u - 65536).
Proof.
  intros Hu. unfold s16. rewrite Z.testbit_eqb by lia.
  change (2 ^ 15) with 32768.
  pose proof (Z.div_mod u 32768 ltac:(lia)).
  pose proof (Z.mod_pos_bound u 32768 ltac:(lia)).
  assert (Hq : 0 <= u / 32768 < 2)
    by (split; [apply Z.div_pos | apply Z.div_lt_upper_bound]; lia).
  split; intros Hc.
  - assert (u / 32768 = 0) as E by lia. rewrite E. reflexivity.
  - assert (u / 32768 = 1) as E by lia. rewrite E. reflexivity.
Qed.

Lemma le16_range (lo hi : byte) : 0 <= bz lo + 256 * bz hi < 65536.
Proof. pose proof (bz_range lo). pose proof (bz_range hi). lia. Qed.

Lemma unpack_le_hh_some (b : list byte) :
  List.length b = 4%nat -> exists p, unpack_le_hh b = Some p.
Proof.
  intros H. destruct b as [|? [|? [|? [|? [|]]]]]; try discriminate H.
  eexists. reflexivity.
Qed.

Lemma unpack_be_LL_some (b : list byte) :
  List.length b = 8%nat -> exists p, unpack_be_LL b = Some p.
Proof.
  intros H.
  destruct b as [|? [|? [|? [|? [|? [|? [|? [|? [|]]]]]]]]]; try discriminate H.
  eexists. reflexivity.
Qed.

Lemma unpack_no_error (u : list byte -> option (Z * Z)) (b : list byte)
    (mode : String.string) (p : Z * Z) :
  u b = Some p -> exists w h, _unpack u b mode = inr (Some w, Some h).
Proof. intros H. unfold _unpack. rewrite H. destruct p. eauto. Qed.

Lemma get_image_shape_gif_branch (pil : Pil) (buf : list byte) :
  (10 <= List.length buf)%nat ->
  slice buf 0 6 = bs "GIF87a" \/ slice buf 0 6 = bs "GIF89a" ->
  get_image_shape pil buf = _unpack unpack_le_hh (slice buf 6 10) "GIF".
Proof.
  intros Hlen Hmagic. unfold get_image_shape.
  assert ((10 <=? List.length buf)%nat = true) as -> by (apply Nat.leb_le; lia).
  destruct Hmagic as [E|E]; rewrite E; reflexivity.
Qed.

Lemma slice_6_10 (buf : list byte) :
  (10 <= List.length buf)%nat ->
  slice buf 6 10 = [nth 6 buf x00; nth 7 buf x00; nth 8 buf x00; nth 9 buf x00].
Proof.
  intros Hlen.
  destruct buf as [|b0 [|b1 [|b2 [|b3 [|b4 [|b5 [|b6 [|b7 [|b8 [|b9 rest]]]]]]]]]];
    simpl in Hlen; try lia.
  reflexivity.
Qed.

Ltac split_if E :=
  match goal with
  | |- context [if ?c then _ else _] => destruct c eqn:E
  end.

Lemma pil_fallback_error (pil : Pil) (buf : list byte) (e : exn) :
  pil_fallback pil buf = inl e ->
  exists open_image, pil = Some open_image /\ open_image buf = inl e.
Proof.
  unfold pil_fallback. destruct pil as [open_image|]; [|discriminate].
  destruct (open_image buf) as [e'|[[w h]|]] eqn:O; try discriminate.
  intros E. injection E as <-. eauto.
Qed.

(** The [Invalid ... file] errors of [_unpack] are unreachable: every
    branch that unpacks first checks that the buffer is long enough, so
    an error of [get_image_shape] comes from the Pillow fallback. *)
Lemma get_image_shape_error_fallback (pil : Pil) (buf : list byte) (e : exn) :
  get_image_shape pil buf = inl e -> pil_fallback pil buf = inl e.
Proof.
  unfold get_image_shape. split_if E1.
  - apply andb_prop in E1 as [E1 _]. apply Nat.leb_le in E1.
    destruct (unpack_le_hh_some (slice buf 6 10)) as [p Hp];
      [rewrite slice_length; lia|].
    destruct (unpack_no_error _ _ "GIF" p Hp) as (w & h & ->). discriminate.
  - split_if E2.
    + apply andb_prop in E2 as [E2 _]. apply andb_prop in E2 as [E2 _].
      apply Nat.leb_le in E2.
      destruct (unpack_be_LL_some (slice buf 16 24)) as [p Hp];
        [rewrite slice_length; lia|].
      destruct (unpack_no_error _ _ "PNG" p Hp) as (w & h & ->). discriminate.
    + split_if E3.
      * apply andb_prop in E3 as [E3 _]. apply Nat.leb_le in E3.
        destruct (unpack_be_LL_some (slice buf 8 16)) as [p Hp];
          [rewrite slice_length; lia|].
        destruct (unpack_no_error _ _ "PNG" p Hp) as (w & h & ->). discriminate.
      * exact (fun H => H).
Qed.

Lemma get_image_shape_error_pil (pil : Pil) (buf : list byte) (e : exn) :
  get_image_shape pil buf = inl e ->
  exists open_image, pil = Some open_image /\ open_image buf = inl e.
Proof.
  intros H. exact (pil_fallback_error _ _ _ (get_image_shape_error_fallback _ _ _ H)).
Qed.

Lemma startswith_png_head (buf : list byte) :
  startswith buf PNG_SIG = true -> exists r, buf = x89 :: r.
Proof.
  intros H. destruct buf as [|x r]; [discriminate H|].
  simpl in H. apply andb_prop in H as [H _].
  apply Byte.byte_dec_bl in H. subst x. eauto.
Qed.

(** ** Claims on the sniffer *)

(** C10: for a buffer of at least 10 bytes starting with [GIF87a] or
    [GIF89a], [get_image_shape] decodes both 16-bit fields as signed
    little-endian integers: a stored value [u] below 32768 is returned as
    is, a stored value from 32768 to 65535 comes back negative, as
    [u - 65536]. *)
Theorem get_image_shape_gif_signed (pil : Pil) (buf : list byte) :
  (10 <= List.length buf)%nat ->
  slice buf 0 6 = bs "GIF87a" \/ slice buf 0 6 = bs "GIF89a" ->
  exists w h,
    get_image_shape pil buf = inr (Some w, Some h) /\
    (let u := bz (nth 6 buf x00) + 256 * bz (nth 7 buf x00) in
     (u < 32768 -> w = u) /\ (32768 <= u -> w = u - 65536 /\ w < 0)) /\
    (let u := bz (nth 8 buf x00) + 256 * bz (nth 9 buf x00) in
     (u < 32768 -> h = u) /\ (32768 <= u -> h = u - 65536 /\ h < 0)).
Proof.
  intros Hlen Hmagic.
  rewrite (get_image_shape_gif_branch pil buf Hlen Hmagic), (slice_6_10 buf Hlen).
  do 2 eexists. split; [reflexivity|].
  pose proof (s16_spec _ (le16_range (nth 6 buf x00) (nth 7 buf x00))) as [Wl Wh].
  pose proof (s16_spec _ (le16_range (nth 8 buf x00) (nth 9 buf x00))) as [Hl Hh].
  pose proof (le16_range (nth 6 buf x00) (nth 7 buf x00)).
  pose proof (le16_range (nth 8 buf x00) (nth 9 buf x00)).
  cbv zeta. split; split; intros Hc.
  - apply Wl. exact Hc.
  - rewrite (Wh Hc). lia.
  - apply Hl. exact Hc.
  - rewrite (Hh Hc). lia.
Qed.

Lemma get_image_shape_gif_signed_witness :
  (10 <= List.length (bs "GIF89a" ++ [x40; x9c; x01; x00]))%nat /\
  (slice (bs "GIF89a" ++ [x40; x9c; x01; x00]) 0 6 = bs "GIF87a" \/
   slice (bs "GIF89a" ++ [x40; x9c; x01; x00]) 0 6 = bs "GIF89a") /\
  exists w h,
    get_image_shape None (bs "GIF89a" ++ [x40; x9c; x01; x00]) = inr (Some w, Some h) /\
    (let u := bz x40 + 256 * bz x9c in
     (u < 32768 -> w = u) /\ (32768 <= u -> w = u - 65536 /\ w < 0)) /\
    (let u := bz x01 + 256 * bz x00 in
     (u < 32768 -> h = u) /\ (32768 <= u -> h = u - 65536 /\ h < 0)).
Proof.
  assert (Hl : (10 <= List.length (bs "GIF89a" ++ [x40; x9c; x01; x00]))%nat)
    by (simpl; lia).
  assert (Hm : slice (bs "GIF89a" ++ [x40; x9c; x01; x00]) 0 6 = bs "GIF87a" \/
               slice (bs "GIF89a" ++ [x40; x9c; x01; x00]) 0 6 = bs "GIF89a")
    by (right; reflexivity).
  split; [exact Hl|]. split; [exact Hm|].
  exact (get_image_shape_gif_signed None _ Hl Hm).
Defined.

(** C5 (counterexample): a buffer with the GIF magic but only 8 bytes does
    not raise [Invalid GIF file]; without an image decoder its shape is
    silently unknown. *)
Lemma get_image_shape_short_gif_unknown :
  get_image_shape None (bs "GIF89a" ++ [x01; x00])
    <> inl (ValueError (bs "Invalid GIF file")) /\
  get_image_shape None (bs "GIF89a" ++ [x01; x00]) = inr (None, None).
Proof. split; [intros H; vm_compute in H; discriminate H | reflexivity]. Qed.

(** C5 (amended): the [Invalid GIF file] / [Invalid PNG file] errors of
    [_unpack] are unreachable: every exception [get_image_shape] raises is
    one raised by Pillow's [Image.open] (other than the caught
    [UnidentifiedImageError]), and without Pillow it raises nothing. A
    buffer too short for the GIF fields (under 10 bytes), or carrying the
    PNG signature but under 16 bytes, goes to the Pillow fallback, which
    gives unknown dimensions when Pillow is not installed. *)
Theorem get_image_shape_never_invalid :
  (forall (pil : Pil) (buf : list byte) (e : exn),
     get_image_shape pil buf = inl e ->
     exists open_image, pil = Some open_image /\ open_image buf = inl e) /\
  (forall (buf : list byte) (e : exn), get_image_shape None buf <> inl e) /\
  (forall (pil : Pil) (buf : list byte),
     (List.length buf < 10)%nat -> get_image_shape pil buf = pil_fallback pil buf) /\
  (forall (pil : Pil) (buf : list byte),
     startswith buf PNG_SIG = true -> (List.length buf < 16)%nat ->
     get_image_shape pil buf = pil_fallback pil buf) /\
  (forall buf : list byte, pil_fallback None buf = inr (None, None)).
Proof.
  split; [exact get_image_shape_error_pil|]. split.
  { intros buf e H. destruct (get_image_shape_error_pil _ _ _ H) as (f & E & _).
    discriminate E. }
  split; [|split; [|reflexivity]].
  - intros pil buf Hlen. unfold get_image_shape.
    assert ((10 <=? List.length buf)%nat = false) as -> by (apply Nat.leb_gt; lia).
    assert ((24 <=? List.length buf)%nat = false) as -> by (apply Nat.leb_gt; lia).
    assert ((16 <=? List.length buf)%nat = false) as -> by (apply Nat.leb_gt; lia).
    reflexivity.
  - intros pil buf Hsig Hlen. unfold get_image_shape.
    destruct (startswith_png_head buf Hsig) as [r ->].
    assert ((24 <=? List.length (x89 :: r))%nat = false) as -> by (apply Nat.leb_gt; lia).
    assert ((16 <=? List.length (x89 :: r))%nat = false) as -> by (apply Nat.leb_gt; lia).
    rewrite andb_false_l.
    destruct (10 <=? List.length (x89 :: r))%nat; reflexivity.
Qed.

(** C6 (code bug): a [GIF89a] header whose width field holds 40000
    (bytes [40 9c]) is reported with width -25536, not 40000. *)
Theorem get_image_shape_gif_width_40000 :
  get_image_shape None (bs "GIF89a" ++ [x40; x9c; x01; x00]) = inr (Some (-25536), Some 1)
  /\ bz x40 + 256 * bz x9c = 40000.
Proof. split; reflexivity. Qed.

(** ** Size resolution *)












(** ** The iTerm2 encoder *)

Ltac app_norm :=
  repeat (rewrite <- app_assoc || rewrite app_nil_r || rewrite app_nil_l).

(** C8 (code bug): with the default height [None] (and width [None]),
    [imgcat] emits the field [;height=None]; the width field is omitted. *)
Theorem imgcat_default_height_emitted :
  run (imgcat (mkEnv false no_tty None) (bs "GIF89a" ++ [x01; x00; x01; x00]) None
         VNone VNone true 24)
  = (inr tt,
     OSC ++ bs "1337;File=inline=1;size=10" ++ bs ";height=None" ++ bs ":"
         ++ b64encode (bs "GIF89a" ++ [x01; x00; x01; x00]) ++ [BEL; LF]).
Proof. vm_compute. reflexivity. Qed.

(** C9 (code bug): [parse_size("10")] does not return the cell count
    ["10"]: the empty suffix makes it evaluate [int(s[:-0])], that is
    [int("")], which raises [ValueError]. *)
Theorem parse_size_plain_integer :
  parse_size (bs "10") = inl (ValueError (bs "invalid literal for int()")) /\
  slice_upto (bs "10") (- Z.of_nat (List.length (bs ""))) = [] /\
  parse_size (bs "10px") = inr (Some (bs "10px")) /\
  parse_size (bs "10%") = inr (Some (bs "10%")).
Proof. repeat split; reflexivity. Qed.

Lemma b64encode_alphabet (l : list byte) (x : byte) :
  In x (b64encode l) -> x = PAD \/ exists s, 0 <= s < 64 /\ x = b64_char s.
Proof.
  revert x.
  induction l as [l IH] using
    (well_founded_induction (Wf_nat.well_founded_ltof _ (@List.length byte))).
  intros x Hx.
  destruct l as [|a [|b [|c r]]].
  - destruct Hx.
  - pose proof (sextet_ranges (bz a) 0 (bz_range a) ltac:(lia)).
    simpl in Hx. destruct Hx as [<-|[<-|[<-|[<-|[]]]]]; eauto 6 with zarith.
    + right. eexists. split; [|reflexivity]. lia.
    + right. eexists. split; [|reflexivity]. lia.
  - pose proof (sextet_ranges (bz a) (bz b) (bz_range a) (bz_range b)).
    pose proof (sextet_ranges (bz b) 0 (bz_range b) ltac:(lia)).
    simpl in Hx. destruct Hx as [<-|[<-|[<-|[<-|[]]]]]; eauto.
    + right. eexists. split; [|reflexivity]. lia.
    + right. eexists. split; [|reflexivity]. lia.
    + right. eexists. split; [|reflexivity]. lia.
  - pose proof (sextet_ranges (bz a) (bz b) (bz_range a) (bz_range b)).
    pose proof (sextet_ranges (bz b) (bz c) (bz_range b) (bz_range c)).
    pose proof (sextet_ranges (bz c) 0 (bz_range c) ltac:(lia)).
    simpl in Hx. destruct Hx as [<-|[<-|[<-|[<-|Hx]]]].
    + right. eexists. split; [|reflexivity]. lia.
    + right. eexists. split; [|reflexivity]. lia.
    + right. eexists. split; [|reflexivity]. lia.
    + right. eexists. split; [|reflexivity]. lia.
    + apply (IH r); [unfold Wf_nat.ltof; simpl; lia | exact Hx].
Qed.

(** A byte outside the base64 alphabet never occurs in an encoding. *)
Lemma b64encode_excludes (c : byte) (l : list byte) :
  b64_val c = None -> c <> PAD -> ~ In c (b64encode l).
Proof.
  intros Hv Hp Hin. destruct (b64encode_alphabet l c Hin) as [E|(s & Hs & E)].
  - contradiction.
  - rewrite E, b64_val_char in Hv by exact Hs. discriminate Hv.
Qed.

Lemma b64encode_no_BEL (l : list byte) : ~ In BEL (b64encode l).
Proof. apply b64encode_excludes; [reflexivity | discriminate]. Qed.

Lemma b64encode_no_ESC (l : list byte) : ~ In ESC (b64encode l).
Proof. apply b64encode_excludes; [reflexivity | discriminate]. Qed.

(** C3: the iTerm2 sequence is [OSC 1337;File=inline=1;size=N ... : B64 BEL]
    where [N] is the byte length of the unencoded buffer; the [;width=]
    field is written only for a truthy width (never for [None], [0] or
    [""]); [;preserveAspectRatio=0] is written exactly when preservation is
    off; the whole base64 payload follows the [:] in one piece and is
    closed by one BEL, which the payload itself never contains.  The
    prefix and suffix are empty and a newline outside tmux; in tmux the
    height must be an [int] ([b'\n' * height]). *)
Theorem iterm2_write_image_fields (is_tmux : bool) (buf : list byte)
    (filename : option (list byte)) (width height : PyVal) (par : bool) :
  (is_tmux = false \/ exists n, height = VInt n) ->
  exists pre post,
    run (iterm2_write_image is_tmux buf filename width height par) =
      (inr tt,
       pre ++ OSC ++ bs "1337;File=inline=1"
           ++ bs ";size=" ++ str_Z (Z.of_nat (List.length buf))
           ++ (match filename with
               | Some ((_ :: _) as f) => bs ";name=" ++ b64encode f
               | _ => []
               end)
           ++ bs ";height=" ++ py_str height
           ++ (if py_truthy width then bs ";width=" ++ py_str width else [])
           ++ (if par then [] else bs ";preserveAspectRatio=0")
           ++ bs ":" ++ b64encode buf ++ ST ++ post) /\
    ~ In BEL (b64encode buf) /\
    (is_tmux = false -> pre = [] /\ post = [LF]).
Proof.
  intros H. destruct is_tmux.
  - destruct H as [H|[n ->]]; [discriminate H|].
    exists (List.concat (repeat [LF] (Z.to_nat n)) ++ (CSI ++ bs "?25l")
              ++ (CSI ++ py_str (VInt n) ++ bs "F") ++ (TMUX_WRAP_ST ++ [ESC])),
           (TMUX_WRAP_ED ++ (CSI ++ py_str (VInt n) ++ bs "E") ++ (CSI ++ bs "?25h")).
    split; [|split; [apply b64encode_no_BEL | discriminate]].
    unfold run, iterm2_write_image.
    destruct filename as [[|f0 f]|]; destruct (py_truthy width); destruct par;
      cbv [bind write ret flush lift bytes_mul negb]; app_norm; reflexivity.
  - exists [], [LF].
    split; [|split; [apply b64encode_no_BEL | auto]].
    unfold run, iterm2_write_image.
    destruct filename as [[|f0 f]|]; destruct (py_truthy width); destruct par;
      cbv [bind write ret flush lift bytes_mul negb]; app_norm; reflexivity.
Qed.

Lemma iterm2_write_image_fields_witness :
  (false = false \/ exists n, VInt 12 = VInt n) /\
  exists pre post,
    run (iterm2_write_image false (bs "AB") (Some (bs "foo.png")) (VInt 10) (VInt 12) false) =
      (inr tt,
       pre ++ OSC ++ bs "1337;File=inline=1"
           ++ bs ";size=" ++ str_Z (Z.of_nat (List.length (bs "AB")))
           ++ (match Some (bs "foo.png") with
               | Some ((_ :: _) as f) => bs ";name=" ++ b64encode f
               | _ => []
               end)
           ++ bs ";height=" ++ py_str (VInt 12)
           ++ (if py_truthy (VInt 10) then bs ";width=" ++ py_str (VInt 10) else [])
           ++ (if false then [] else bs ";preserveAspectRatio=0")
           ++ bs ":" ++ b64encode (bs "AB") ++ ST ++ post) /\
    ~ In BEL (b64encode (bs "AB")) /\
    (false = false -> pre = [] /\ post = [LF]).
Proof.
  assert (H : false = false \/ exists n, VInt 12 = VInt n) by (left; reflexivity).
  split; [exact H|].
  exact (iterm2_write_image_fields false (bs "AB") (Some (bs "foo.png")) (VInt 10)
           (VInt 12) false H).
Defined.

(** ** Kitty chunking *)

Lemma digits_aux_ascii (fuel : nat) (n : N) (acc : list byte) :
  forallb is_ascii acc = true -> forallb is_ascii (digits_aux fuel n acc) = true.
Proof.
  revert n acc. induction fuel as [|f IH]; intros n acc Hacc; [exact Hacc|].
  assert (Hd : is_ascii (digit_byte (n mod 10)) = true).
  { unfold is_ascii, digit_byte. pose proof (N.mod_lt n 10 ltac:(discriminate)) as Hm.
    assert (0 <= Z.of_N (n mod 10) < 10).
    { split; [apply N2Z.is_nonneg|]. change 10 with (Z.of_N 10). apply N2Z.inj_lt. exact Hm. }
    rewrite bz_zb by lia. apply Z.ltb_lt. lia. }
  simpl. destruct (n / 10 =? 0)%N.
  - simpl. rewrite Hd, Hacc. reflexivity.
  - apply IH. simpl. rewrite Hd, Hacc. reflexivity.
Qed.

Lemma str_Z_ascii (z : Z) : forallb is_ascii (str_Z z) = true.
Proof.
  unfold str_Z, str_N. destruct (z <? 0).
  - cbn [forallb]. rewrite digits_aux_ascii by reflexivity. reflexivity.
  - apply digits_aux_ascii. reflexivity.
Qed.

Lemma serialize_nil_ok (is_tmux : bool) (m : Z) (p : list byte) :
  exists s, serialize_gr_command is_tmux (od_set [] (bs "m") (VInt m)) p = inr s.
Proof.
  unfold serialize_gr_command. cbn [od_set map fst snd join py_str].
  rewrite !forallb_app, str_Z_ascii. simpl. eauto.
Qed.

Lemma od_set_kitty (is_tmux : bool) (height : Z) (v : PyVal) :
  od_set (kitty_cmd is_tmux height) (bs "m") v = kitty_cmd is_tmux height ++ [(bs "m", v)].
Proof. reflexivity. Qed.

Lemma serialize_kitty_ok (is_tmux : bool) (height m : Z) (p : list byte) :
  exists s, serialize_gr_command is_tmux (od_set (kitty_cmd is_tmux height) (bs "m") (VInt m)) p
            = inr s.
Proof.
  rewrite od_set_kitty. unfold serialize_gr_command, kitty_cmd.
  cbn [app map fst snd join py_str].
  rewrite !forallb_app, !str_Z_ascii. simpl. eauto.
Qed.

Lemma write_chunked_loop_spec (fuel : nat) (is_tmux : bool) (cmd : Cmd)
    (data out : list byte) :
  (List.length data <= fuel)%nat ->
  (forall m p, exists s, serialize_gr_command is_tmux (od_set cmd (bs "m") (VInt m)) p = inr s) ->
  exists frames,
    write_chunked_loop fuel is_tmux cmd data out
      = (inr tt, out ++ List.concat (map (fun f => snd f) frames)) /\
    chunk_frames_ok is_tmux cmd frames data.
Proof.
  revert cmd data out.
  induction fuel as [|f IH]; intros cmd data out Hlen Hser.
  - destruct data; [|simpl in Hlen; lia].
    exists []. rewrite app_nil_r. split; reflexivity.
  - destruct data as [|x d].
    + exists []. rewrite app_nil_r. split; reflexivity.
    + destruct (Hser (match skipn 4096 (x :: d) with [] => 0 | _ => 1 end)
                     (firstn 4096 (x :: d))) as [s Hs].
      destruct (IH [] (skipn 4096 (x :: d)) (out ++ s)) as (frames & Hrun & Hok).
      { rewrite List.length_skipn. simpl in Hlen |- *. lia. }
      { intros m p. apply serialize_nil_ok. }
      exists ((od_set cmd (bs "m") (VInt (match skipn 4096 (x :: d) with [] => 0 | _ => 1 end)),
               firstn 4096 (x :: d), s) :: frames).
      split.
      * cbn [write_chunked_loop]. unfold bind, lift, write, flush, ret.
        rewrite Hs, Hrun. cbn [map List.concat snd]. rewrite app_assoc. reflexivity.
      * cbn [chunk_frames_ok]. repeat split; auto. discriminate.
Qed.

Lemma chunk_frames_ok_nil (is_tmux : bool) (cmd : Cmd) frames (data : list byte) :
  chunk_frames_ok is_tmux cmd frames data -> (frames = [] <-> data = []).
Proof.
  destruct frames as [|[[c p] s] rest]; cbn [chunk_frames_ok].
  - intros ->. tauto.
  - intros (Hd & _). split; intros H; [discriminate H | contradiction].
Qed.

Lemma chunk_frames_ok_payloads (is_tmux : bool) (cmd : Cmd) frames (data : list byte) :
  chunk_frames_ok is_tmux cmd frames data ->
  List.concat (map (fun f => snd (fst f)) frames) = data.
Proof.
  revert cmd data. induction frames as [|[[c p] s] rest IH]; intros cmd data Hok.
  - cbn in *. symmetry. exact Hok.
  - destruct Hok as (_ & -> & _ & _ & Hrest).
    cbn [map List.concat fst snd]. rewrite (IH _ _ Hrest). apply firstn_skipn.
Qed.

Lemma chunk_frames_ok_nth (is_tmux : bool) (cmd : Cmd) frames (data : list byte) :
  chunk_frames_ok is_tmux cmd frames data ->
  forall i c p s, nth_error frames i = Some (c, p, s) ->
    serialize_gr_command is_tmux c p = inr s /\
    c = od_set (if (i =? 0)%nat then cmd else []) (bs "m")
          (VInt (if (S i <? List.length frames)%nat then 1 else 0)) /\
    ((S i < List.length frames)%nat -> List.length p = 4096%nat) /\
    (S i = List.length frames -> (1 <= List.length p <= 4096)%nat).
Proof.
  revert cmd data. induction frames as [|[[c0 p0] s0] rest IH]; intros cmd data Hok i c p s Hi.
  - destruct i; discriminate Hi.
  - destruct Hok as (Hne & Hp & Hc & Hs & Hrest).
    destruct i as [|i].
    + cbn in Hi. injection Hi as <- <- <-.
      pose proof (chunk_frames_ok_nil _ _ _ _ Hrest) as Hnil.
      split; [exact Hs|]. cbn [Nat.eqb List.length].
      destruct rest as [|r1 rest'].
      * assert (Hsk : skipn 4096 data = []) by (apply Hnil; reflexivity).
        rewrite Hsk in Hc. cbn [List.length Nat.ltb Nat.leb].
        split; [exact Hc|]. split; [intros Hlt; lia|].
        intros _. rewrite Hp, List.length_firstn.
        destruct data as [|x d]; [contradiction|]. cbn [List.length]. lia.
      * assert (Hsk : skipn 4096 data <> []) by (intros E; apply Hnil in E; discriminate E).
        destruct (skipn 4096 data) as [|y ys] eqn:Esk; [contradiction|].
        split; [exact Hc|]. split; [|cbn; lia].
        intros _. rewrite Hp, List.length_firstn.
        assert (List.length (skipn 4096 data) > 0)%nat by (rewrite Esk; simpl; lia).
        rewrite List.length_skipn in H. lia.
    + cbn in Hi.
      destruct (IH [] (skipn 4096 data) Hrest i c p s Hi) as (H1 & H2 & H3 & H4).
      cbn [Nat.eqb List.length]. split; [exact H1|]. split.
      * rewrite H2. cbn [Nat.eqb]. destruct i; reflexivity.
      * split; intros; [apply H3 | apply H4]; lia.
Qed.

Lemma b64encode_nonempty (buf : list byte) : buf <> [] -> b64encode buf <> [].
Proof.
  intros H. destruct buf as [|a [|b [|c r]]]; [contradiction| | |]; cbn [b64encode]; discriminate.
Qed.

(** C2: for a non-empty buffer, [write_chunked] with the control data of
    [kitty._write_image] writes a non-empty sequence of frames.  Every frame
    but the last carries exactly 4096 base64 bytes and [m=1].  The last one
    carries 1 to 4096 bytes and [m=0].  Only the first frame carries the full
    key set; later frames carry only [m].  The payloads, concatenated in
    order, are the base64 encoding of the buffer and decode back to it. *)
Theorem write_chunked_frames (is_tmux : bool) (height : Z) (buf : list byte) :
  buf <> [] ->
  exists frames : list (Cmd * list byte * list byte),
    run (write_chunked is_tmux (kitty_cmd is_tmux height) buf)
      = (inr tt, List.concat (map (fun f => snd f) frames)) /\
    (1 <= List.length frames)%nat /\
    (forall i c p s, nth_error frames i = Some (c, p, s) ->
       serialize_gr_command is_tmux c p = inr s /\
       c = (if (i =? 0)%nat then kitty_cmd is_tmux height else [])
             ++ [(bs "m", VInt (if (S i <? List.length frames)%nat then 1 else 0))] /\
       ((S i < List.length frames)%nat -> List.length p = 4096%nat) /\
       (S i = List.length frames -> (1 <= List.length p <= 4096)%nat)) /\
    List.concat (map (fun f => snd (fst f)) frames) = b64encode buf /\
    b64decode (List.concat (map (fun f => snd (fst f)) frames)) = Some buf.
Proof.
  intros Hbuf.
  destruct (write_chunked_loop_spec (List.length (b64encode buf)) is_tmux
              (kitty_cmd is_tmux height) (b64encode buf) [] (le_n _)
              (fun m p => serialize_kitty_ok is_tmux height m p)) as (frames & Hrun & Hok).
  exists frames.
  pose proof (chunk_frames_ok_payloads _ _ _ _ Hok) as Hpay.
  split; [exact Hrun|].
  split.
  { destruct frames as [|f fs]; [|cbn [List.length]; lia].
    exfalso. apply (b64encode_nonempty buf Hbuf).
    apply (chunk_frames_ok_nil _ _ _ _ Hok). reflexivity. }
  split.
  { intros i c p s Hi.
    destruct (chunk_frames_ok_nth _ _ _ _ Hok i c p s Hi) as (H1 & H2 & H3 & H4).
    split; [exact H1|]. split; [|split; assumption].
    rewrite H2. destruct i as [|i]; cbn [Nat.eqb].
    - apply od_set_kitty.
    - reflexivity. }
  split; [exact Hpay|].
  rewrite Hpay. apply b64decode_b64encode.
Qed.

Lemma write_chunked_frames_witness :
  bs "hello" <> [] /\
  exists frames : list (Cmd * list byte * list byte),
    run (write_chunked false (kitty_cmd false 5) (bs "hello"))
      = (inr tt, List.concat (map (fun f => snd f) frames)) /\
    (1 <= List.length frames)%nat /\
    (forall i c p s, nth_error frames i = Some (c, p, s) ->
       serialize_gr_command false c p = inr s /\
       c = (if (i =? 0)%nat then kitty_cmd false 5 else [])
             ++ [(bs "m", VInt (if (S i <? List.length frames)%nat then 1 else 0))] /\
       ((S i < List.length frames)%nat -> List.length p = 4096%nat) /\
       (S i = List.length frames -> (1 <= List.length p <= 4096)%nat)) /\
    List.concat (map (fun f => snd (fst f)) frames) = b64encode (bs "hello") /\
    b64decode (List.concat (map (fun f => snd (fst f)) frames)) = Some (bs "hello").
Proof.
  split; [vm_compute; discriminate|].
  apply (write_chunked_frames false 5 (bs "hello")). vm_compute. discriminate.
Defined.

(** ** The passthrough wrapping *)

Lemma byte_eqb_refl (x : byte) : Byte.eqb x x = true.
Proof. apply Byte.byte_dec_lb. reflexivity. Qed.

Lemma not_in_forallb (b : byte) (l : list byte) :
  forallb (fun x => negb (Byte.eqb x b)) l = true -> ~ In b l.
Proof.
  intros H Hin. rewrite forallb_forall in H. specialize (H b Hin).
  rewrite byte_eqb_refl in H. discriminate H.
Qed.

Lemma not_in_app (b : byte) (l1 l2 : list byte) :
  ~ In b l1 -> ~ In b l2 -> ~ In b (l1 ++ l2).
Proof. intros H1 H2 H. apply in_app_or in H. tauto. Qed.

Lemma digits_aux_num (fuel : nat) (n : N) (acc : list byte) :
  (forall b, In b acc -> 48 <= bz b <= 57) ->
  forall b, In b (digits_aux fuel n acc) -> 48 <= bz b <= 57.
Proof.
  revert n acc. induction fuel as [|f IH]; intros n acc Hacc; [exact Hacc|].
  assert (Hd : 48 <= bz (digit_byte (n mod 10)) <= 57).
  { unfold digit_byte. pose proof (N.mod_lt n 10 ltac:(discriminate)) as Hm.
    assert (0 <= Z.of_N (n mod 10) < 10).
    { split; [apply N2Z.is_nonneg|]. change 10 with (Z.of_N 10). apply N2Z.inj_lt. exact Hm. }
    rewrite bz_zb by lia. lia. }
  assert (Hacc' : forall b, In b (digit_byte (n mod 10) :: acc) -> 48 <= bz b <= 57).
  { intros b [<-|Hb]; [exact Hd | apply Hacc; exact Hb]. }
  simpl. destruct (n / 10 =? 0)%N; [exact Hacc'|]. apply IH. exact Hacc'.
Qed.

Lemma str_Z_num (z : Z) (b : byte) :
  In b (str_Z z) -> b = zb 45 \/ 48 <= bz b <= 57.
Proof.
  unfold str_Z, str_N. destruct (z <? 0).
  - intros [<-|Hb]; [left; reflexivity|right].
    exact (digits_aux_num _ _ [] (fun b H => match H with end) b Hb).
  - intros Hb. right. exact (digits_aux_num _ _ [] (fun b H => match H with end) b Hb).
Qed.

Lemma str_Z_no_ESC (z : Z) : ~ In ESC (str_Z z).
Proof.
  intros H. destruct (str_Z_num z ESC H) as [E|E].
  - vm_compute in E. discriminate E.
  - assert (bz ESC = 27) by reflexivity. lia.
Qed.

Lemma str_Z_no_bslash (z : Z) : ~ In (zb 92) (str_Z z).
Proof.
  intros H. destruct (str_Z_num z (zb 92) H) as [E|E].
  - vm_compute in E. discriminate E.
  - assert (bz (zb 92) = 92) by reflexivity. lia.
Qed.

Lemma repeat_LF_no_ESC (k : nat) (b : byte) :
  In b (List.concat (repeat [LF] k)) -> b <> ESC.
Proof.
  induction k as [|k IH]; cbn [repeat List.concat]; [contradiction|].
  intros [<-|Hb]; [discriminate | exact (IH Hb)].
Qed.

Lemma index_skip (h : byte) (pat' pre s : list byte) (i : nat) :
  (forall b, In b pre -> b <> h) ->
  index_aux (h :: pat') (pre ++ s) i = index_aux (h :: pat') s (i + List.length pre).
Proof.
  revert i. induction pre as [|x pre IH]; intros i H.
  - rewrite Nat.add_0_r. reflexivity.
  - cbn [app index_aux startswith].
    destruct (Byte.eqb x h) eqn:E.
    + apply Byte.byte_dec_bl in E. exfalso. exact (H x (or_introl eq_refl) E).
    + cbn [andb]. rewrite IH by (intros b Hb; apply H; right; exact Hb).
      f_equal. cbn [List.length]. lia.
Qed.

Lemma index_skip_ST (pre s : list byte) (i : nat) :
  (forall b, In b pre -> b <> ESC) ->
  index_aux TMUX_WRAP_ST (pre ++ s) i = index_aux TMUX_WRAP_ST s (i + List.length pre).
Proof. apply index_skip. Qed.

Lemma index_CSI_ST (s : list byte) (i : nat) :
  index_aux TMUX_WRAP_ST (CSI ++ s) i = index_aux TMUX_WRAP_ST s (i + 2).
Proof. rewrite Nat.add_comm. reflexivity. Qed.

Lemma startswith_app (p s : list byte) : startswith (p ++ s) p = true.
Proof.
  induction p as [|x p IH].
  - destruct s; reflexivity.
  - cbn [app startswith]. rewrite byte_eqb_refl, IH. reflexivity.
Qed.

Lemma index_aux_start (pat s : list byte) (i : nat) :
  startswith s pat = true -> index_aux pat s i = Some i.
Proof. intros H. destruct s; cbn [index_aux]; rewrite H; reflexivity. Qed.

Lemma skipn_len_app (l1 l2 : list byte) : skipn (List.length l1) (l1 ++ l2) = l2.
Proof. induction l1 as [|x l1 IH]; [reflexivity|]. exact IH. Qed.

Lemma firstn_len_app (l1 l2 : list byte) : firstn (List.length l1) (l1 ++ l2) = l1.
Proof. induction l1 as [|x l1 IH]; [reflexivity|]. cbn. rewrite IH. reflexivity. Qed.

Lemma unwrap_frame (pre mid post : list byte) :
  (forall rest, index_aux TMUX_WRAP_ST (pre ++ rest) 0
                = index_aux TMUX_WRAP_ST rest (List.length pre)) ->
  ~ In (zb 92) post ->
  tmux_unwrap_passthrough (pre ++ TMUX_WRAP_ST ++ mid ++ TMUX_WRAP_ED ++ post)
    = Some (undouble_esc mid).
Proof.
  intros Hpre Hpost. unfold tmux_unwrap_passthrough, py_index, py_rindex.
  rewrite Hpre, index_aux_start by apply startswith_app.
  assert (Hrev : rev (pre ++ TMUX_WRAP_ST ++ mid ++ TMUX_WRAP_ED ++ post)
                 = rev post ++ [zb 92; ESC] ++ rev (pre ++ TMUX_WRAP_ST ++ mid)).
  { rewrite !rev_app_distr. rewrite <- !app_assoc. reflexivity. }
  rewrite Hrev. change (rev TMUX_WRAP_ED) with [zb 92; ESC].
  rewrite index_skip
    by (intros b Hb E; subst b; apply Hpost; apply in_rev; exact Hb).
  rewrite index_aux_start by apply startswith_app.
  do 2 f_equal. unfold slice.
  rewrite app_assoc.
  replace (List.length pre + 7)%nat with (List.length (pre ++ TMUX_WRAP_ST))
    by (rewrite length_app; reflexivity).
  rewrite skipn_len_app.
  replace (_ - _)%nat with (List.length mid)
    by (rewrite length_rev, !length_app; cbn [List.length TMUX_WRAP_ST TMUX_WRAP_ED]; lia).
  apply firstn_len_app.
Qed.

Lemma undouble_esc_free (l r : list byte) :
  ~ In ESC l -> undouble_esc (l ++ r) = l ++ undouble_esc r.
Proof.
  induction l as [|x l IH]; intros H; [reflexivity|].
  assert (Hx : Byte.eqb x ESC = false).
  { destruct (Byte.eqb x ESC) eqn:E; [|reflexivity].
    apply Byte.byte_dec_bl in E. subst x. exfalso. apply H. left. reflexivity. }
  cbn [app]. rewrite <- IH by (intros Hin; apply H; right; exact Hin).
  destruct (l ++ r) as [|y t]; [reflexivity|].
  transitivity (if Byte.eqb x ESC && Byte.eqb y ESC then ESC :: undouble_esc t
                else x :: undouble_esc (y :: t)); [reflexivity|].
  rewrite Hx. reflexivity.
Qed.

Lemma undouble_esc_id (l : list byte) : ~ In ESC l -> undouble_esc l = l.
Proof.
  intros H. rewrite <- (app_nil_r l) at 1. rewrite undouble_esc_free by exact H.
  apply app_nil_r.
Qed.

Lemma undouble_esc_esc (r : list byte) : undouble_esc (ESC :: ESC :: r) = ESC :: undouble_esc r.
Proof. reflexivity. Qed.

Lemma undouble_osc (r : list byte) : ~ In ESC r -> undouble_esc ([ESC] ++ OSC ++ r) = OSC ++ r.
Proof.
  intros H. change (undouble_esc (ESC :: ESC :: zb 93 :: r) = ESC :: zb 93 :: r).
  rewrite undouble_esc_esc, undouble_esc_id; [reflexivity|].
  intros [E|E]; [vm_compute in E; discriminate E | exact (H E)].
Qed.

Lemma join_not_in (b : byte) (sep : list byte) (l : list (list byte)) :
  ~ In b sep -> (forall x, In x l -> ~ In b x) -> ~ In b (join sep l).
Proof.
  intros Hs. induction l as [|x r IH]; intros H; [intros []|].
  destruct r as [|y r'].
  - apply H. left. reflexivity.
  - change (join sep (x :: y :: r')) with (x ++ sep ++ join sep (y :: r')).
    apply not_in_app; [apply H; left; reflexivity|].
    apply not_in_app; [exact Hs|].
    apply IH. intros z Hz. apply H. right. exact Hz.
Qed.

Ltac no_esc :=
  repeat (apply not_in_app);
  first [ apply not_in_forallb; reflexivity
        | apply str_Z_no_ESC
        | apply b64encode_no_ESC
        | assumption ].

(** C4, counterexample: a width string holding two ESC bytes.  The plain
    sequence carries both; tmux mode doubles only the ESC that opens the
    OSC sequence, so the unwrapper of the test suite collapses the width's
    two ESC bytes into one. *)
Lemma tmux_passthrough_width_esc :
  exists inner,
    snd (run (iterm2_write_image false (bs "A") None (VStr [ESC; ESC]) (VInt 1) true))
      = inner ++ [LF] /\
    tmux_unwrap_passthrough
      (snd (run (iterm2_write_image true (bs "A") None (VStr [ESC; ESC]) (VInt 1) true)))
      <> Some inner.
Proof.
  exists (removelast (snd (run (iterm2_write_image false (bs "A") None
                                  (VStr [ESC; ESC]) (VInt 1) true)))).
  split; vm_compute; [reflexivity | discriminate].
Qed.

(** C4: the tmux wrapping doubles the ESC bytes of the protocol's own
    framing only.  A kitty graphics command whose control data and payload
    hold no ESC unwraps to the plain command; an iTerm2 sequence whose
    height is an [int] and whose width, when written, holds no ESC unwraps
    to the plain sequence without its final newline. *)
Theorem tmux_passthrough_roundtrip (c : Cmd) (payload : list byte)
    (buf : list byte) (filename : option (list byte)) (width : PyVal) (n : Z) (par : bool) :
  (forall k v, In (k, v) c -> ~ In ESC k /\ ~ In ESC (py_str v)) ->
  ~ In ESC payload ->
  (py_truthy width = true -> ~ In ESC (py_str width)) ->
  (forall plain, serialize_gr_command false c payload = inr plain ->
     exists wrapped, serialize_gr_command true c payload = inr wrapped /\
       tmux_unwrap_passthrough wrapped = Some plain) /\
  (exists inner,
     run (iterm2_write_image false buf filename width (VInt n) par) = (inr tt, inner ++ [LF]) /\
     fst (run (iterm2_write_image true buf filename width (VInt n) par)) = inr tt /\
     tmux_unwrap_passthrough (snd (run (iterm2_write_image true buf filename width (VInt n) par)))
       = Some inner).
Proof.
  intros Hc Hp Hw. split.
  - intros plain Hplain. unfold serialize_gr_command in *.
    set (ctrl := join (bs ",") (map (fun kv => fst kv ++ bs "=" ++ py_str (snd kv)) c)) in *.
    destruct (forallb is_ascii ctrl); [|discriminate Hplain].
    injection Hplain as <-. eexists. split; [reflexivity|].
    set (pp := match payload with [] => [] | _ => bs ";" ++ payload end).
    assert (Hfree : ~ In ESC ([zb 95; zb 71] ++ ctrl ++ pp)).
    { apply not_in_app; [apply not_in_forallb; reflexivity|].
      apply not_in_app.
      - apply join_not_in; [apply not_in_forallb; reflexivity|].
        intros x Hx. apply in_map_iff in Hx. destruct Hx as ([k v] & <- & Hkv).
        destruct (Hc k v Hkv) as [Hk Hv]. cbn [fst snd]. no_esc.
      - unfold pp. destruct payload; [intros []|]. no_esc. }
    transitivity (tmux_unwrap_passthrough
      ([] ++ TMUX_WRAP_ST ++ (ESC :: ESC :: (([zb 95; zb 71] ++ ctrl ++ pp) ++ [ESC; ESC; zb 92]))
          ++ TMUX_WRAP_ED ++ [])).
    { f_equal. cbn [app]. app_norm. reflexivity. }
    rewrite unwrap_frame by (reflexivity || intros []).
    rewrite undouble_esc_esc, undouble_esc_free by exact Hfree.
    f_equal. app_norm. reflexivity.
  - set (inner := OSC ++ bs "1337;File=inline=1"
           ++ bs ";size=" ++ str_Z (Z.of_nat (List.length buf))
           ++ (match filename with
               | Some ((_ :: _) as f) => bs ";name=" ++ b64encode f
               | _ => []
               end)
           ++ bs ";height=" ++ py_str (VInt n)
           ++ (if py_truthy width then bs ";width=" ++ py_str width else [])
           ++ (if par then [] else bs ";preserveAspectRatio=0")
           ++ bs ":" ++ b64encode buf ++ ST).
    set (pre := List.concat (repeat [LF] (Z.to_nat n)) ++ CSI ++ bs "?25l"
                  ++ CSI ++ py_str (VInt n) ++ bs "F").
    set (post := CSI ++ py_str (VInt n) ++ bs "E" ++ CSI ++ bs "?25h").
    assert (Ht : run (iterm2_write_image true buf filename width (VInt n) par)
                 = (inr tt, pre ++ TMUX_WRAP_ST ++ ([ESC] ++ inner) ++ TMUX_WRAP_ED ++ post)).
    { unfold run, iterm2_write_image, inner, pre, post.
      destruct filename as [[|f0 f]|]; destruct (py_truthy width); destruct par;
        cbv [bind write ret flush lift bytes_mul negb]; app_norm; reflexivity. }
    exists inner. split; [|split].
    + unfold run, iterm2_write_image, inner.
      destruct filename as [[|f0 f]|]; destruct (py_truthy width); destruct par;
        cbv [bind write ret flush lift bytes_mul negb]; app_norm; reflexivity.
    + rewrite Ht. reflexivity.
    + rewrite Ht. cbn [snd]. rewrite unwrap_frame.
      * f_equal. unfold inner. apply undouble_osc.
        destruct filename as [[|f0 f]|]; destruct (py_truthy width) eqn:Ew; destruct par;
          try specialize (Hw eq_refl); no_esc.
      * intros rest. unfold pre. rewrite <- !app_assoc.
        rewrite index_skip_ST by (intros b Hb; exact (repeat_LF_no_ESC _ b Hb)).
        rewrite index_CSI_ST.
        rewrite index_skip_ST by (intros b Hb E; subst b; revert Hb; apply not_in_forallb; reflexivity).
        rewrite index_CSI_ST.
        rewrite index_skip_ST by (intros b Hb E; subst b; revert Hb; apply str_Z_no_ESC).
        rewrite index_skip_ST by (intros b Hb E; subst b; revert Hb; apply not_in_forallb; reflexivity).
        f_equal. rewrite !length_app. cbn [List.length CSI]. lia.
      * unfold post. repeat apply not_in_app;
          first [apply not_in_forallb; reflexivity | apply str_Z_no_bslash].
Qed.

Lemma tmux_passthrough_roundtrip_witness :
  (forall k v, In (k, v) [(bs "a", VStr (bs "T"))] -> ~ In ESC k /\ ~ In ESC (py_str v)) /\
  ~ In ESC (bs "QUJD") /\
  (py_truthy (VInt 10) = true -> ~ In ESC (py_str (VInt 10))) /\
  (forall plain, serialize_gr_command false [(bs "a", VStr (bs "T"))] (bs "QUJD") = inr plain ->
     exists wrapped, serialize_gr_command true [(bs "a", VStr (bs "T"))] (bs "QUJD") = inr wrapped /\
       tmux_unwrap_passthrough wrapped = Some plain) /\
  (exists inner,
     run (iterm2_write_image false (bs "A") None (VInt 10) (VInt 2) true) = (inr tt, inner ++ [LF]) /\
     fst (run (iterm2_write_image true (bs "A") None (VInt 10) (VInt 2) true)) = inr tt /\
     tmux_unwrap_passthrough (snd (run (iterm2_write_image true (bs "A") None (VInt 10) (VInt 2) true)))
       = Some inner).
Proof.
  assert (H1 : forall k v, In (k, v) [(bs "a", VStr (bs "T"))] -> ~ In ESC k /\ ~ In ESC (py_str v)).
  { intros k v [E|[]]. injection E as <- <-.
    split; apply not_in_forallb; reflexivity. }
  assert (H2 : ~ In ESC (bs "QUJD")) by (apply not_in_forallb; reflexivity).
  assert (H3 : py_truthy (VInt 10) = true -> ~ In ESC (py_str (VInt 10)))
    by (intros _; apply not_in_forallb; reflexivity).
  split; [exact H1|]. split; [exact H2|]. split; [exact H3|].
  exact (tmux_passthrough_roundtrip [(bs "a", VStr (bs "T"))] (bs "QUJD") (bs "A") None
           (VInt 10) 2 true H1 H2 H3).
Defined.

(** ** More of imgcat.parse_size *)

Lemma bytes_eqb_eq (a b : list byte) : bytes_eqb a b = true -> a = b.
Proof.
  revert b. induction a as [|x a IH]; intros [|y b] H; try discriminate H; [reflexivity|].
  cbn [bytes_eqb] in H. apply andb_prop in H as [H1 H2].
  apply Byte.byte_dec_bl in H1. subst y. f_equal. apply IH. exact H2.
Qed.

Lemma endswith_app (s p : list byte) : endswith (s ++ p) p = true.
Proof. unfold endswith. rewrite rev_app_distr. apply startswith_app. Qed.

Lemma pow2_size_nat (p : positive) : Z.pos p < 2 ^ Z.of_nat (Pos.size_nat p).
Proof.
  induction p as [p IH|p IH|]; cbn [Pos.size_nat]; rewrite ?Nat2Z.inj_succ, ?Z.pow_succ_r by lia;
    try lia.
Qed.

Lemma str_N_fuel (n : N) : Z.of_N n < 10 ^ Z.of_nat (S (N.size_nat n)).
Proof.
  destruct n as [|p]; [cbn; lia|].
  cbn [N.size_nat Z.of_N]. pose proof (pow2_size_nat p) as H.
  assert (2 ^ Z.of_nat (Pos.size_nat p) <= 10 ^ Z.of_nat (S (Pos.size_nat p))).
  { transitivity (10 ^ Z.of_nat (Pos.size_nat p)).
    - apply Z.pow_le_mono_l. lia.
    - apply Z.pow_le_mono_r; lia. }
  lia.
Qed.

Lemma digits_aux_value (fuel : nat) (n : N) (acc : list byte) :
  Z.of_N n < 10 ^ Z.of_nat fuel ->
  digits_value 0 (digits_aux fuel n acc) = digits_value (Z.of_N n) acc.
Proof.
  revert n acc. induction fuel as [|f IH]; intros n acc Hn.
  - cbn in Hn. assert (n = 0%N) as -> by lia. reflexivity.
  - assert (Hd : bz (digit_byte (n mod 10)) - 48 = Z.of_N (n mod 10)).
    { unfold digit_byte. pose proof (N.mod_lt n 10 ltac:(discriminate)) as Hm.
      assert (0 <= Z.of_N (n mod 10) < 10).
      { split; [apply N2Z.is_nonneg|]. change 10 with (Z.of_N 10). apply N2Z.inj_lt. exact Hm. }
      rewrite bz_zb by lia. lia. }
    pose proof (N.div_mod n 10 ltac:(discriminate)) as Hdm.
    cbn [digits_aux]. destruct (n / 10 =? 0)%N eqn:E.
    + apply N.eqb_eq in E. cbn [digits_value]. rewrite Hd. f_equal. lia.
    + rewrite IH.
      * cbn [digits_value]. rewrite Hd. f_equal. lia.
      * rewrite Nat2Z.inj_succ, Z.pow_succ_r in Hn by lia.
        rewrite N2Z.inj_div. change (Z.of_N 10) with 10.
        apply Z.div_lt_upper_bound; lia.
Qed.

Lemma digits_aux_nonempty (fuel : nat) (n : N) (acc : list byte) :
  acc <> [] -> digits_aux fuel n acc <> [].
Proof.
  revert n acc. induction fuel as [|f IH]; intros n acc H; [exact H|].
  cbn [digits_aux]. destruct (n / 10 =? 0)%N; [discriminate|]. apply IH. discriminate.
Qed.

Lemma str_N_digits (n : N) :
  exists c l, str_N n = c :: l /\ Byte.eqb c (zb 45) = false /\ Byte.eqb c (zb 43) = false /\
    forallb is_digit (c :: l) = true /\ digits_value 0 (c :: l) = Z.of_N n.
Proof.
  assert (Hdig : forall b, In b (str_N n) -> 48 <= bz b <= 57)
    by (apply digits_aux_num; intros b []).
  assert (Hval : digits_value 0 (str_N n) = Z.of_N n)
    by (unfold str_N; rewrite digits_aux_value by apply str_N_fuel; reflexivity).
  assert (Hne : str_N n <> []).
  { unfold str_N. cbn [digits_aux]. destruct (n / 10 =? 0)%N; [discriminate|].
    apply digits_aux_nonempty. discriminate. }
  assert (Hall : forallb is_digit (str_N n) = true).
  { apply forallb_forall. intros b Hb. apply Hdig in Hb. unfold is_digit.
    apply andb_true_intro. split; apply Z.leb_le; lia. }
  destruct (str_N n) as [|c l] eqn:E; [contradiction|].
  assert (Hc : 48 <= bz c <= 57) by (apply Hdig; left; reflexivity).
  exists c, l. split; [reflexivity|]. split; [|split; [|split; assumption]].
  - destruct (Byte.eqb c (zb 45)) eqn:Ec; [|reflexivity].
    apply Byte.byte_dec_bl in Ec. subst c. change (bz (zb 45)) with 45 in Hc. lia.
  - destruct (Byte.eqb c (zb 43)) eqn:Ec; [|reflexivity].
    apply Byte.byte_dec_bl in Ec. subst c. change (bz (zb 43)) with 43 in Hc. lia.
Qed.

Lemma py_int_str_Z (z : Z) : py_int (str_Z z) = inr z.
Proof.
  unfold str_Z. destruct (z <? 0) eqn:E.
  - apply Z.ltb_lt in E.
    destruct (str_N_digits (Z.to_N (- z))) as (c & l & Es & _ & _ & Hall & Hval).
    unfold py_int. rewrite byte_eqb_refl, Es, Hall, Hval.
    cbn [option_map]. f_equal. lia.
  - apply Z.ltb_ge in E.
    destruct (str_N_digits (Z.to_N z)) as (c & l & Es & Hm & Hp & Hall & Hval).
    unfold py_int. rewrite Es, Hm, Hp, Hall, Hval. f_equal. lia.
Qed.

Lemma bytes_eqb_suffix (x sfx t : list byte) :
  endswith t sfx = false -> bytes_eqb (x ++ sfx) t = false.
Proof.
  intros H. destruct (bytes_eqb (x ++ sfx) t) eqn:E; [|reflexivity].
  apply bytes_eqb_eq in E. subst t. rewrite endswith_app in H. discriminate H.
Qed.

Lemma slice_upto_suffix (x sfx : list byte) :
  sfx <> [] -> slice_upto (x ++ sfx) (- Z.of_nat (List.length sfx)) = x.
Proof.
  intros Hs. unfold slice_upto.
  assert (Hl : (0 < List.length sfx)%nat) by (destruct sfx; [contradiction | cbn; lia]).
  replace (- Z.of_nat (List.length sfx) <? 0) with true by (symmetry; apply Z.ltb_lt; lia).
  replace (Z.to_nat (Z.of_nat (List.length (x ++ sfx)) + - Z.of_nat (List.length sfx)))
    with (List.length x) by (rewrite length_app; lia).
  apply firstn_len_app.
Qed.

Lemma parse_suffixes_hit (x sfx : list byte) (rest : list (list byte)) :
  sfx <> [] ->
  parse_suffixes (sfx :: rest) (x ++ sfx)
    = match py_int x with inr n => inr (Some (str_Z n ++ sfx)) | inl e => inl e end.
Proof.
  intros Hs. cbn [parse_suffixes]. rewrite endswith_app, slice_upto_suffix by exact Hs.
  reflexivity.
Qed.

(** [parse_size] raises [ValueError] on every string that is none of the
    four tokens and ends in neither [%] nor [px]: the empty suffix always
    matches and leads to [int(s[:-0])], that is [int('')]. *)
Theorem parse_size_unsuffixed_error (s : list byte) :
  ~ In s [bs "v0.5"; bs "auto"; bs "original"; bs "default"] ->
  endswith s (bs "%") = false -> endswith s (bs "px") = false ->
  parse_size s = inl (ValueError (bs "invalid literal for int()")).
Proof.
  intros Htok Hpct Hpx. unfold parse_size.
  assert (Hne : forall t, In t [bs "v0.5"; bs "auto"; bs "original"; bs "default"] ->
                  bytes_eqb s t = false).
  { intros t Ht. destruct (bytes_eqb s t) eqn:E; [|reflexivity].
    apply bytes_eqb_eq in E. subst t. contradiction. }
  rewrite !Hne by (cbn; tauto). cbn [orb].
  cbn [parse_suffixes]. rewrite Hpct, Hpx.
  assert (He : endswith s [] = true) by (unfold endswith; cbn; destruct (rev s); reflexivity).
  rewrite He. reflexivity.
Qed.

Lemma parse_size_unsuffixed_error_witness :
  ~ In (bs "10") [bs "v0.5"; bs "auto"; bs "original"; bs "default"] /\
  endswith (bs "10") (bs "%") = false /\ endswith (bs "10") (bs "px") = false /\
  parse_size (bs "10") = inl (ValueError (bs "invalid literal for int()")).
Proof.
  assert (H1 : ~ In (bs "10") [bs "v0.5"; bs "auto"; bs "original"; bs "default"]).
  { intros H. vm_compute in H. repeat (destruct H as [H|H]; [discriminate H|]). exact H. }
  assert (H2 : endswith (bs "10") (bs "%") = false) by reflexivity.
  assert (H3 : endswith (bs "10") (bs "px") = false) by reflexivity.
  split; [exact H1|]. split; [exact H2|]. split; [exact H3|].
  exact (parse_size_unsuffixed_error (bs "10") H1 H2 H3).
Defined.

(** For every integer [n], [parse_size(str(n) + 'px')] and
    [parse_size(str(n) + '%')] give the input back: [int] reads back what
    [str] writes. *)
Theorem parse_size_int_suffix (n : Z) :
  parse_size (str_Z n ++ bs "px") = inr (Some (str_Z n ++ bs "px")) /\
  parse_size (str_Z n ++ bs "%") = inr (Some (str_Z n ++ bs "%")).
Proof.
  unfold parse_size.
  rewrite !bytes_eqb_suffix by reflexivity. cbn [orb].
  split.
  - cbn [parse_suffixes].
    assert (Hp : endswith (str_Z n ++ bs "px") (bs "%") = false).
    { unfold endswith. rewrite rev_app_distr. reflexivity. }
    rewrite Hp.
    change (if endswith (str_Z n ++ bs "px") (bs "px") then _ else _)
      with (parse_suffixes [bs "px"; []] (str_Z n ++ bs "px")).
    rewrite parse_suffixes_hit by discriminate. rewrite py_int_str_Z. reflexivity.
  - rewrite parse_suffixes_hit by discriminate. rewrite py_int_str_Z. reflexivity.
Qed.

(** ** More of imgcat.get_image_shape *)

Lemma le16_split (w : Z) :
  w mod 256 + 256 * ((w / 256) mod 256) = w mod 65536.
Proof.
  pose proof (Z.div_mod w 256 ltac:(lia)).
  pose proof (Z.div_mod (w / 256) 256 ltac:(lia)).
  rewrite Z.div_div in H0 by lia. change (256 * 256) with 65536 in H0.
  pose proof (Z.div_mod w 65536 ltac:(lia)).
  pose proof (Z.mod_pos_bound w 65536 ltac:(lia)).
  pose proof (Z.mod_pos_bound w 256 ltac:(lia)).
  pose proof (Z.mod_pos_bound (w / 256) 256 ltac:(lia)).
  lia.
Qed.

Lemma s16_le16 (w : Z) :
  -32768 <= w < 32768 -> s16 (w mod 256 + 256 * ((w / 256) mod 256)) = w.
Proof.
  intros Hw. rewrite le16_split.
  pose proof (Z.mod_pos_bound w 65536 ltac:(lia)) as Hm.
  destruct (s16_spec (w mod 65536) Hm) as [Hlo Hhi].
  destruct (Z.ltb_spec w 0) as [Hneg|Hpos].
  - assert (E : w mod 65536 = w + 65536).
    { rewrite <- (Z.mod_small (w + 65536) 65536) by lia.
      rewrite <- Z.add_mod_idemp_r by lia. rewrite Z.mod_same by lia.
      rewrite Z.add_0_r. reflexivity. }
    rewrite Hhi; lia.
  - rewrite Z.mod_small in * by lia. apply Hlo. lia.
Qed.

Lemma be32_join (w : Z) :
  0 <= w < 4294967296 ->
  ((w / 16777216 * 256 + (w / 65536) mod 256) * 256 + (w / 256) mod 256) * 256 + w mod 256 = w.
Proof.
  intros Hw.
  pose proof (Z.div_mod w 256 ltac:(lia)).
  pose proof (Z.div_mod (w / 256) 256 ltac:(lia)).
  pose proof (Z.div_mod (w / 65536) 256 ltac:(lia)).
  rewrite Z.div_div in H0 by lia. change (256 * 256) with 65536 in H0.
  rewrite Z.div_div in H1 by lia. change (65536 * 256) with 16777216 in H1.
  lia.
Qed.

Lemma byte_range_div (w d : Z) :
  0 <= w < 4294967296 -> d = 16777216 -> 0 <= w / d < 256.
Proof.
  intros Hw ->. split; [apply Z.div_pos; lia | apply Z.div_lt_upper_bound; lia].
Qed.

Ltac mod_range := apply Z.mod_pos_bound; lia.

(** A GIF header (either magic) carrying the two signed 16-bit fields
    [w] and [h] in little-endian order is read back as [(w, h)], whatever
    follows it and whether or not Pillow is present. *)
Lemma gif_header_shape (pil : Pil) (magic rest : list byte) (w h : Z) :
  magic = bs "GIF87a" \/ magic = bs "GIF89a" ->
  -32768 <= w < 32768 -> -32768 <= h < 32768 ->
  get_image_shape pil
    (magic ++ map zb [w mod 256; (w / 256) mod 256; h mod 256; (h / 256) mod 256] ++ rest)
  = inr (Some w, Some h).
Proof.
  intros Hm Hw Hh.
  assert (Hs : slice (magic ++ map zb [w mod 256; (w / 256) mod 256; h mod 256; (h / 256) mod 256]
                        ++ rest) 0 6 = magic)
    by (destruct Hm as [-> | ->]; reflexivity).
  rewrite get_image_shape_gif_branch.
  - assert (Hs' : slice (magic ++ map zb [w mod 256; (w / 256) mod 256; h mod 256;
                                            (h / 256) mod 256] ++ rest) 6 10
                  = map zb [w mod 256; (w / 256) mod 256; h mod 256; (h / 256) mod 256])
      by (destruct Hm as [-> | ->]; reflexivity).
    rewrite Hs'. unfold _unpack. cbn [map unpack_le_hh].
    rewrite !bz_zb by mod_range.
    rewrite !s16_le16 by assumption. reflexivity.
  - rewrite !length_app. destruct Hm as [-> | ->]; cbn; lia.
  - rewrite Hs. exact Hm.
Qed.

(** A PNG signature followed by an [IHDR] chunk header, whose big-endian
    32-bit width and height are [w] and [h], is read back as [(w, h)]. *)
Lemma png_header_shape (pil : Pil) (len4 rest : list byte) (w h : Z) :
  List.length len4 = 4%nat ->
  0 <= w < 4294967296 -> 0 <= h < 4294967296 ->
  get_image_shape pil
    (PNG_SIG ++ len4 ++ bs "IHDR"
       ++ map zb [w / 16777216; (w / 65536) mod 256; (w / 256) mod 256; w mod 256;
                  h / 16777216; (h / 65536) mod 256; (h / 256) mod 256; h mod 256]
       ++ rest)
  = inr (Some w, Some h).
Proof.
  intros Hl Hw Hh.
  destruct len4 as [|l0 [|l1 [|l2 [|l3 [|l4 r]]]]]; cbn in Hl; try lia.
  set (body := map zb [w / 16777216; (w / 65536) mod 256; (w / 256) mod 256; w mod 256;
                       h / 16777216; (h / 65536) mod 256; (h / 256) mod 256; h mod 256]).
  set (buf := PNG_SIG ++ [l0; l1; l2; l3] ++ bs "IHDR" ++ body ++ rest).
  assert (E1 : bytes_eqb (slice buf 0 6) (bs "GIF87a") = false) by reflexivity.
  assert (E2 : bytes_eqb (slice buf 0 6) (bs "GIF89a") = false) by reflexivity.
  assert (E3 : (24 <=? List.length buf)%nat = true)
    by (apply Nat.leb_le; unfold buf; rewrite !length_app; cbn; lia).
  assert (E4 : startswith buf PNG_SIG = true) by apply startswith_app.
  assert (E5 : bytes_eqb (slice buf 12 16) (bs "IHDR") = true) by reflexivity.
  assert (E6 : slice buf 16 24 = body) by reflexivity.
  unfold get_image_shape. cbv zeta.
  rewrite E1, E2, E3, E4, E5, E6, andb_false_r. cbn [andb orb].
  unfold _unpack, body. cbn [map unpack_be_LL].
  rewrite !bz_zb by first [mod_range | apply byte_range_div; auto].
  rewrite !be32_join by assumption. reflexivity.
Qed.

Lemma imgcat_nonempty (env : Env) (buf : list byte) (filename : option (list byte))
    (width height : PyVal) (par : bool) (ppl : Z) :
  buf <> [] ->
  imgcat env buf filename width height par ppl =
    (sizes <- resolve_sizes env buf width height ppl ;;
     let '(width', height') := sizes in
     if py_eq_str width' "v0.5" then
       raise (ValueError (bs "There is no legacy fallback for width"))
     else iterm2_write_image (env_tmux env) buf filename width' height' par).
Proof. intros H. destruct buf; [contradiction | reflexivity]. Qed.

Lemma iterm2_tmux_type_error (buf : list byte) (filename : option (list byte))
    (width height : PyVal) (par : bool) (out : list byte) :
  (forall n, height <> VInt n) ->
  iterm2_write_image true buf filename width height par out = (inl TypeError, out).
Proof.
  intros H. destruct height as [|n|s]; [reflexivity| |reflexivity].
  exfalso. exact (H n eq_refl).
Qed.

Lemma px_not_v05 (z : Z) : py_eq_str (VStr (str_Z z ++ bs "px")) "v0.5" = false.
Proof. apply bytes_eqb_suffix. reflexivity. Qed.

(** Outside Pillow's reach: for a buffer with a GIF magic and at least 10
    bytes, or with the PNG signature and at least 16 bytes,
    [get_image_shape] gives the same result with or without Pillow. *)
Theorem get_image_shape_pil_unused (pil1 pil2 : Pil) (buf : list byte) :
  ((10 <= List.length buf)%nat /\ (slice buf 0 6 = bs "GIF87a" \/ slice buf 0 6 = bs "GIF89a")) \/
  ((16 <= List.length buf)%nat /\ startswith buf PNG_SIG = true) ->
  get_image_shape pil1 buf = get_image_shape pil2 buf.
Proof.
  intros [[Hl Hm]|[Hl Hs]].
  - rewrite !get_image_shape_gif_branch by assumption. reflexivity.
  - unfold get_image_shape. cbv zeta.
    assert (E : (16 <=? List.length buf)%nat = true) by (apply Nat.leb_le; exact Hl).
    rewrite E, Hs. cbn [andb]. reflexivity.
Qed.

(** With [width='original'] and [height='original'], [imgcat] on a GIF
    whose header holds [w] and [h] writes the iTerm2 sequence with
    [width='{w}px'] and [height='{h}px'], or ['auto'] for a zero field. *)
Theorem imgcat_original_sizes (env : Env) (magic rest : list byte) (w h : Z)
    (filename : option (list byte)) (par : bool) (ppl : Z) :
  magic = bs "GIF87a" \/ magic = bs "GIF89a" ->
  -32768 <= w < 32768 -> -32768 <= h < 32768 ->
  run (imgcat env
    (magic ++ map zb [w mod 256; (w / 256) mod 256; h mod 256; (h / 256) mod 256] ++ rest)
    filename (VStr (bs "original")) (VStr (bs "original")) par ppl)
  = run (iterm2_write_image (env_tmux env)
      (magic ++ map zb [w mod 256; (w / 256) mod 256; h mod 256; (h / 256) mod 256] ++ rest)
      filename
      (if negb (w =? 0) then VStr (str_Z w ++ bs "px") else VStr (bs "auto"))
      (if negb (h =? 0) then VStr (str_Z h ++ bs "px") else VStr (bs "auto"))
      par).
Proof.
  intros Hm Hw Hh.
  rewrite imgcat_nonempty by (destruct Hm as [-> | ->]; discriminate).
  unfold resolve_sizes. cbn [py_eq_str].
  assert (Eo : bytes_eqb (bs "original") (bs "original") = true) by reflexivity.
  assert (Ev : bytes_eqb (bs "original") (bs "v0.5") = false) by reflexivity.
  rewrite Eo, Ev. cbn [orb].
  rewrite (gif_header_shape _ _ _ _ _ Hm Hw Hh).
  unfold run, bind, lift, ret.
  cbn [opt_truthy opt_val py_eq_str].
  destruct (negb (w =? 0)).
  - rewrite (px_not_v05 w). reflexivity.
  - reflexivity.
Qed.

(** In tmux, [imgcat] raises [TypeError] and writes nothing whenever the
    height it hands to the iTerm2 encoder is not an [int]: any height other
    than an [int] or ['v0.5'], such as [None] (the default), ['original'],
    ['auto'] or ['10px'], makes [b'\n' * height] fail; this assumes that
    the Pillow fallback of [get_image_shape] raises nothing on the buffer
    (for instance Pillow is not installed, or the buffer is a GIF or PNG). *)
Theorem imgcat_tmux_height_not_int (env : Env) (buf : list byte)
    (filename : option (list byte)) (width height : PyVal) (par : bool) (ppl : Z) :
  env_tmux env = true -> buf <> [] ->
  (forall e, get_image_shape (env_pil env) buf <> inl e) ->
  py_eq_str height "v0.5" = false -> (forall n, height <> VInt n) ->
  py_eq_str width "v0.5" = false ->
  run (imgcat env buf filename width height par ppl) = (inl TypeError, []).
Proof.
  intros Ht Hb Hg Hv Hn Hwv.
  rewrite imgcat_nonempty by exact Hb.
  unfold run, resolve_sizes, bind, lift, ret. rewrite Hv, Ht. cbn [orb].
  destruct (py_eq_str height "original" || py_eq_str width "original") eqn:Eo.
  - destruct (get_image_shape (env_pil env) buf) as [e|[iw ih]] eqn:G.
    + exfalso. exact (Hg e eq_refl).
    + assert (Hw' : py_eq_str (if py_eq_str width "original" then
                                 if opt_truthy iw then VStr (str_Z (opt_val iw) ++ bs "px")
                                 else VStr (bs "auto")
                               else width) "v0.5" = false).
      { destruct (py_eq_str width "original"); [|exact Hwv].
        destruct (opt_truthy iw); [apply px_not_v05 | reflexivity]. }
      destruct (py_eq_str height "original").
      * rewrite Hw'. apply iterm2_tmux_type_error.
        destruct (opt_truthy ih); discriminate.
      * rewrite Hw'. apply iterm2_tmux_type_error. exact Hn.
  - rewrite Hwv. apply iterm2_tmux_type_error. exact Hn.
Qed.

(** ** More of kitty.py *)

(** [kitty.clear()] in tmux, unwrapped as the test suite does, is the
    sequence it writes outside tmux. *)
Theorem kitty_clear_tmux_unwrap :
  tmux_unwrap_passthrough (snd (run (kitty_clear true))) = Some (snd (run (kitty_clear false))).
Proof. vm_compute. reflexivity. Qed.

Lemma write_chunked_loop_out (fuel : nat) (is_tmux : bool) (cmd : Cmd) (data out : list byte) :
  write_chunked_loop fuel is_tmux cmd data out
  = (fst (write_chunked_loop fuel is_tmux cmd data []),
     out ++ snd (write_chunked_loop fuel is_tmux cmd data [])).
Proof.
  revert cmd data out. induction fuel as [|f IH]; intros cmd data out.
  - cbn. rewrite app_nil_r. reflexivity.
  - destruct data as [|x d]; [cbn; rewrite app_nil_r; reflexivity|].
    cbn [write_chunked_loop]. unfold bind, lift, write, flush, ret.
    destruct (serialize_gr_command is_tmux _ _) as [e|s].
    + cbn. rewrite app_nil_r. reflexivity.
    + rewrite (IH [] _ (out ++ s)), (IH [] _ ([] ++ s)).
      cbn [fst snd]. rewrite <- app_assoc. reflexivity.
Qed.

Lemma write_chunked_kitty (is_tmux : bool) (height : Z) (buf : list byte) :
  exists frames,
    run (write_chunked is_tmux (kitty_cmd is_tmux height) buf)
      = (inr tt, List.concat (map (fun f => snd f) frames)) /\
    chunk_frames_ok is_tmux (kitty_cmd is_tmux height) frames (b64encode buf).
Proof.
  destruct (write_chunked_loop_spec (List.length (b64encode buf)) is_tmux
              (kitty_cmd is_tmux height) (b64encode buf) [] (le_n _)
              (fun m p => serialize_kitty_ok is_tmux height m p)) as (frames & Hrun & Hok).
  exists frames. split; [exact Hrun | exact Hok].
Qed.

(** [kitty._write_image] with an [int] height never raises.  Its output is
    the margin (tmux only: [height] newlines, hide the cursor, move it up),
    then exactly what [write_chunked] writes, then the trailer (tmux only:
    move the cursor down, show it), then one newline.  For an empty buffer
    [write_chunked] writes nothing, so no graphics command is sent at all. *)
Theorem kitty_write_image_output (is_tmux : bool) (buf : list byte) (height : Z) :
  exists frames_out,
    run (write_chunked is_tmux (kitty_cmd is_tmux height) buf) = (inr tt, frames_out) /\
    run (kitty_write_image is_tmux buf height)
      = (inr tt,
         (if is_tmux then List.concat (repeat [LF] (Z.to_nat height)) ++ CSI ++ bs "?25l"
                          ++ CSI ++ str_Z height ++ bs "F" else [])
         ++ frames_out
         ++ (if is_tmux then CSI ++ str_Z height ++ bs "E" ++ CSI ++ bs "?25h" else [])
         ++ [LF]) /\
    (buf = [] -> frames_out = []).
Proof.
  destruct (write_chunked_kitty is_tmux height buf) as (frames & Hrun & _).
  exists (List.concat (map (fun f => snd f) frames)).
  split; [exact Hrun|]. split.
  - unfold run in Hrun |- *. unfold write_chunked in Hrun.
    unfold kitty_write_image, write_chunked.
    destruct is_tmux; cbv [bind write ret flush];
      rewrite write_chunked_loop_out, Hrun; cbn [fst snd]; app_norm; reflexivity.
  - intros ->. unfold run, write_chunked in Hrun. cbn in Hrun.
    injection Hrun as H. exact (eq_sym H).
Qed.

Lemma length_b64encode (l : list byte) :
  List.length (b64encode l) = (4 * ((List.length l + 2) / 3))%nat.
Proof.
  induction l as [l IH] using (well_founded_induction (Wf_nat.well_founded_ltof _ (@List.length byte))).
  destruct l as [|a [|b [|c r]]]; [reflexivity | reflexivity | reflexivity|].
  cbn [b64encode List.length].
  rewrite IH by (unfold Wf_nat.ltof; cbn; lia).
  replace (S (S (S (List.length r))) + 2)%nat with (List.length r + 2 + 1 * 3)%nat by lia.
  rewrite Nat.div_add by lia. lia.
Qed.

Lemma chunk_frames_ok_count (is_tmux : bool) (cmd : Cmd) frames (data : list byte) :
  chunk_frames_ok is_tmux cmd frames data ->
  List.length frames = ((List.length data + 4095) / 4096)%nat.
Proof.
  revert cmd data. induction frames as [|[[c p] s] rest IH]; intros cmd data Hok.
  - cbn in Hok. subst data. reflexivity.
  - destruct Hok as (Hne & _ & _ & _ & Hrest).
    cbn [List.length]. rewrite (IH _ _ Hrest), List.length_skipn.
    assert (Hl : (1 <= List.length data)%nat) by (destruct data; [contradiction | cbn; lia]).
    destruct (Nat.le_gt_cases (List.length data) 4096) as [Hs|Hs].
    + replace (List.length data - 4096)%nat with 0%nat by lia.
      rewrite (Nat.div_small (0 + 4095)) by lia.
      apply (Nat.div_unique _ _ _ (List.length data - 1)); lia.
    + replace (List.length data + 4095)%nat with (List.length data - 4096 + 4095 + 1 * 4096)%nat
        by lia.
      rewrite Nat.div_add by lia. lia.
Qed.

(** [write_chunked] sends [ceil(L / 4096)] graphics commands, where
    [L = 4 * ceil(len(buf) / 3)] is the length of the base64 text: each
    command is one round of the [while data:] loop on its 4096-byte
    slices. *)
Theorem write_chunked_command_count (is_tmux : bool) (height : Z) (buf : list byte) :
  exists frames,
    run (write_chunked is_tmux (kitty_cmd is_tmux height) buf)
      = (inr tt, List.concat (map (fun f => snd f) frames)) /\
    chunk_frames_ok is_tmux (kitty_cmd is_tmux height) frames (b64encode buf) /\
    List.length frames = ((4 * ((List.length buf + 2) / 3) + 4095) / 4096)%nat.
Proof.
  destruct (write_chunked_kitty is_tmux height buf) as (frames & Hrun & Hok).
  exists frames. split; [exact Hrun|]. split; [exact Hok|].
  rewrite (chunk_frames_ok_count _ _ _ _ Hok), length_b64encode. reflexivity.
Qed.

(** ** Header round trips *)

(** A GIF header (either magic) carrying the signed 16-bit fields [w] and
    [h] in little-endian order is read back as [(w, h)], whatever follows it
    and whether or not Pillow is present. *)
Theorem get_image_shape_gif_roundtrip (pil : Pil) (magic rest : list byte) (w h : Z) :
  magic = bs "GIF87a" \/ magic = bs "GIF89a" ->
  -32768 <= w < 32768 -> -32768 <= h < 32768 ->
  get_image_shape pil
    (magic ++ map zb [w mod 256; (w / 256) mod 256; h mod 256; (h / 256) mod 256] ++ rest)
  = inr (Some w, Some h).
Proof. apply gif_header_shape. Qed.

(** A PNG signature followed by an [IHDR] chunk header, whose big-endian
    unsigned 32-bit width and height are [w] and [h], is read back as
    [(w, h)]. *)
Theorem get_image_shape_png_roundtrip (pil : Pil) (len4 rest : list byte) (w h : Z) :
  List.length len4 = 4%nat ->
  0 <= w < 4294967296 -> 0 <= h < 4294967296 ->
  get_image_shape pil
    (PNG_SIG ++ len4 ++ bs "IHDR"
       ++ map zb [w / 16777216; (w / 65536) mod 256; (w / 256) mod 256; w mod 256;
                  h / 16777216; (h / 65536) mod 256; (h / 256) mod 256; h mod 256]
       ++ rest)
  = inr (Some w, Some h).
Proof. apply png_header_shape. Qed.

(** ** Witnesses *)

Lemma get_image_shape_gif_roundtrip_witness :
  (bs "GIF89a" = bs "GIF87a" \/ bs "GIF89a" = bs "GIF89a") /\
  -32768 <= -2 < 32768 /\ -32768 <= 300 < 32768 /\
  get_image_shape None
    (bs "GIF89a" ++ map zb [-2 mod 256; (-2 / 256) mod 256; 300 mod 256; (300 / 256) mod 256] ++ [])
  = inr (Some (-2), Some 300).
Proof.
  assert (H1 : bs "GIF89a" = bs "GIF87a" \/ bs "GIF89a" = bs "GIF89a") by (right; reflexivity).
  assert (H2 : -32768 <= -2 < 32768) by lia.
  assert (H3 : -32768 <= 300 < 32768) by lia.
  split; [exact H1|]. split; [exact H2|]. split; [exact H3|].
  exact (get_image_shape_gif_roundtrip None (bs "GIF89a") [] (-2) 300 H1 H2 H3).
Defined.

Lemma get_image_shape_png_roundtrip_witness :
  List.length [x00; x00; x00; x0d] = 4%nat /\
  0 <= 40000 < 4294967296 /\ 0 <= 1 < 4294967296 /\
  get_image_shape None
    (PNG_SIG ++ [x00; x00; x00; x0d] ++ bs "IHDR"
       ++ map zb [40000 / 16777216; (40000 / 65536) mod 256; (40000 / 256) mod 256; 40000 mod 256;
                  1 / 16777216; (1 / 65536) mod 256; (1 / 256) mod 256; 1 mod 256]
       ++ [])
  = inr (Some 40000, Some 1).
Proof.
  assert (H1 : List.length [x00; x00; x00; x0d] = 4%nat) by reflexivity.
  assert (H2 : 0 <= 40000 < 4294967296) by lia.
  assert (H3 : 0 <= 1 < 4294967296) by lia.
  split; [exact H1|]. split; [exact H2|]. split; [exact H3|].
  exact (get_image_shape_png_roundtrip None [x00; x00; x00; x0d] [] 40000 1 H1 H2 H3).
Defined.

Lemma get_image_shape_pil_unused_witness :
  (((10 <= List.length (bs "GIF89a" ++ [x01; x00; x02; x00]))%nat /\
    (slice (bs "GIF89a" ++ [x01; x00; x02; x00]) 0 6 = bs "GIF87a" \/
     slice (bs "GIF89a" ++ [x01; x00; x02; x00]) 0 6 = bs "GIF89a")) \/
   ((16 <= List.length (bs "GIF89a" ++ [x01; x00; x02; x00]))%nat /\
    startswith (bs "GIF89a" ++ [x01; x00; x02; x00]) PNG_SIG = true)) /\
  get_image_shape None (bs "GIF89a" ++ [x01; x00; x02; x00])
  = get_image_shape (Some (fun _ => inr (Some (7, 7)))) (bs "GIF89a" ++ [x01; x00; x02; x00]).
Proof.
  assert (H : ((10 <= List.length (bs "GIF89a" ++ [x01; x00; x02; x00]))%nat /\
    (slice (bs "GIF89a" ++ [x01; x00; x02; x00]) 0 6 = bs "GIF87a" \/
     slice (bs "GIF89a" ++ [x01; x00; x02; x00]) 0 6 = bs "GIF89a")) \/
   ((16 <= List.length (bs "GIF89a" ++ [x01; x00; x02; x00]))%nat /\
    startswith (bs "GIF89a" ++ [x01; x00; x02; x00]) PNG_SIG = true))
    by (left; split; [cbn; lia | right; reflexivity]).
  split; [exact H|].
  exact (get_image_shape_pil_unused None (Some (fun _ => inr (Some (7, 7))))
           (bs "GIF89a" ++ [x01; x00; x02; x00]) H).
Defined.

Lemma imgcat_original_sizes_witness :
  (bs "GIF89a" = bs "GIF87a" \/ bs "GIF89a" = bs "GIF89a") /\
  -32768 <= 3 < 32768 /\ -32768 <= 0 < 32768 /\
  run (imgcat (mkEnv false no_tty None)
    (bs "GIF89a" ++ map zb [3 mod 256; (3 / 256) mod 256; 0 mod 256; (0 / 256) mod 256] ++ [])
    None (VStr (bs "original")) (VStr (bs "original")) true 24)
  = run (iterm2_write_image (env_tmux (mkEnv false no_tty None))
      (bs "GIF89a" ++ map zb [3 mod 256; (3 / 256) mod 256; 0 mod 256; (0 / 256) mod 256] ++ [])
      None
      (if negb (3 =? 0) then VStr (str_Z 3 ++ bs "px") else VStr (bs "auto"))
      (if negb (0 =? 0) then VStr (str_Z 0 ++ bs "px") else VStr (bs "auto"))
      true).
Proof.
  assert (H1 : bs "GIF89a" = bs "GIF87a" \/ bs "GIF89a" = bs "GIF89a") by (right; reflexivity).
  assert (H2 : -32768 <= 3 < 32768) by lia.
  assert (H3 : -32768 <= 0 < 32768) by lia.
  split; [exact H1|]. split; [exact H2|]. split; [exact H3|].
  exact (imgcat_original_sizes (mkEnv false no_tty None) (bs "GIF89a") [] 3 0 None true 24
           H1 H2 H3).
Defined.

Lemma imgcat_tmux_height_not_int_witness :
  env_tmux (mkEnv true no_tty None) = true /\
  bs "GIF89a" ++ [x01; x00; x01; x00] <> [] /\
  (forall e, get_image_shape (env_pil (mkEnv true no_tty None))
               (bs "GIF89a" ++ [x01; x00; x01; x00]) <> inl e) /\
  py_eq_str (VStr (bs "original")) "v0.5" = false /\
  (forall n, VStr (bs "original") <> VInt n) /\
  py_eq_str VNone "v0.5" = false /\
  run (imgcat (mkEnv true no_tty None) (bs "GIF89a" ++ [x01; x00; x01; x00]) None
         VNone (VStr (bs "original")) true 24) = (inl TypeError, []).
Proof.
  assert (H1 : env_tmux (mkEnv true no_tty None) = true) by reflexivity.
  assert (H2 : bs "GIF89a" ++ [x01; x00; x01; x00] <> []) by discriminate.
  assert (Hg : forall e, get_image_shape (env_pil (mkEnv true no_tty None))
                          (bs "GIF89a" ++ [x01; x00; x01; x00]) <> inl e)
    by (intros e E; vm_compute in E; discriminate E).
  assert (H3 : py_eq_str (VStr (bs "original")) "v0.5" = false) by reflexivity.
  assert (H4 : forall n, VStr (bs "original") <> VInt n) by (intros n E; discriminate E).
  assert (H5 : py_eq_str VNone "v0.5" = false) by reflexivity.
  split; [exact H1|]. split; [exact H2|]. split; [exact Hg|]. split; [exact H3|].
  split; [exact H4|]. split; [exact H5|].
  exact (imgcat_tmux_height_not_int (mkEnv true no_tty None) (bs "GIF89a" ++ [x01; x00; x01; x00])
           None VNone (VStr (bs "original")) true 24 H1 H2 Hg H3 H4 H5).
Defined.
